(** * ws_feeder: synthetic order generator driven by a book-ticker feed

    A shallow embedding of [src/ws_feeder.py] (the coroutine [run]) and the
    properties of its output stream.

    How the Python program is read here.

    - [float] is an interface ([PyFloat]): the control flow of [run] is
      embedded over any implementation of it, so every theorem about the
      loop, the stop conditions, the exceptions and the order of the random
      draws holds whatever the arithmetic does.  The numeric theorems are
      stated over [ExactFloat], where a float is the rational it denotes
      and every operation is exact; rounding error of binary64, signed
      zeros, infinities and NaN are outside that instance.
    - the module [random] is an interface ([Rng]) over an explicit generator
      state; [random.seed] builds a state from the seed alone.
    - the web socket is a list of messages: [ws.recv()] takes the next one
      and raises [ConnectionClosed] once the list is used up.  A feed that
      blocks for ever is not represented.
    - [time.time()] reads an oracle: the n-th call returns [clock n].
    - [sys.stdout] records every [write] in order and accepts all of them
      (no [BrokenPipeError]); [flush] and [asyncio.sleep] do not change
      what is written. *)

From Stdlib Require Import List String Ascii Bool ZArith QArith Qround Qabs.
From Stdlib Require Import Lia Lqa Decimal DecimalString.
Import ListNotations.

Local Open Scope string_scope.
Local Open Scope Z_scope.

(* ------------------------------------------------------------------ *)
(** ** Interfaces of the Python runtime used by [run] *)

(** Python's [float], as far as [run] uses it. *)
Class PyFloat (F : Type) := {
  lit : Q -> F;               (* a literal or an int converted to float *)
  fadd : F -> F -> F;
  fsub : F -> F -> F;
  fmul : F -> F -> F;
  fdiv : F -> F -> F;
  flt : F -> F -> bool;       (* x < y *)
  fge : F -> F -> bool;       (* x >= y *)
  truthy : F -> bool;         (* bool(x) *)
  round_nd : F -> Z -> F;     (* round(x, ndigits) *)
  repr : F -> string          (* str(x), which f"{x}" uses *)
}.

(** The module [random]: one generator state, threaded through the calls. *)
Class Rng (F G : Type) := {
  random_seed : Z -> G;                 (* random.seed(s) *)
  random : G -> F * G;                  (* random.random() *)
  uniform : F -> F -> G -> F * G;       (* random.uniform(a, b) *)
  randint : Z -> Z -> G -> Z * G        (* random.randint(a, b) *)
}.

(** What the library documents about the three draws. *)
Class RngRanges (G : Type) `{Rng Q G} : Prop := {
  random_range : forall g, (0 <= fst (random g) /\ fst (random g) < 1)%Q;
  uniform_range : forall a b g, (a <= b)%Q ->
      (a <= fst (uniform a b g) /\ fst (uniform a b g) <= b)%Q;
  randint_range : forall a b g, a <= b ->
      a <= fst (randint a b g) <= b
}.

(** Exceptions that can leave [run]. *)
Inductive exn : Type :=
| OSError             (* websockets.connect could not reach the endpoint *)
| ConnectionClosed    (* ws.recv() on a closed stream *)
| JSONDecodeError     (* json.loads on text that is not JSON *)
| TypeError           (* indexing a non-object, float() of a non-number *)
| KeyError (k : string)
| ValueError.         (* float() of text that is not a number *)

(** A value of the decoded object, by what [float(...)] does on it. *)
Inductive field (F : Type) : Type :=
| Floatable (x : F)
| BadText
| BadType.
Arguments Floatable {F} x.
Arguments BadText {F}.
Arguments BadType {F}.

(** A message of the feed, by what [json.loads] does on it. *)
Inductive message (F : Type) : Type :=
| JsonObject (data : list (string * field F))
| JsonOther
| NotJson.
Arguments JsonObject {F} data.
Arguments JsonOther {F}.
Arguments NotJson {F}.

(** What [websockets.connect(url)] finds. *)
Inductive endpoint (F : Type) : Type :=
| Unreachable
| Connected (msgs : list (message F)).
Arguments Unreachable {F}.
Arguments Connected {F} msgs.

(** The state outside [run]: the generator of [random], what was written to
    [sys.stdout], and the clock behind [time.time()]. *)
Record world (F G : Type) : Type := World {
  rng : G;
  stdout : list string;
  clock : nat -> F;
  reads : nat
}.
Arguments World {F G} rng stdout clock reads.
Arguments rng {F G} w.
Arguments stdout {F G} w.
Arguments clock {F G} w.
Arguments reads {F G} w.

(** Arguments of [run]. *)
Record config (F : Type) : Type := Config {
  symbol : string;
  rate : F;
  burst : Z;
  limit : option Z;
  duration : option F;
  seed : option Z
}.
Arguments Config {F} symbol rate burst limit duration seed.
Arguments symbol {F} c.
Arguments rate {F} c.
Arguments burst {F} c.
Arguments limit {F} c.
Arguments duration {F} c.
Arguments seed {F} c.

(* ------------------------------------------------------------------ *)
(** ** A state and exception monad *)

Inductive result (A : Type) : Type :=
| Ok (a : A)
| Raise (e : exn).
Arguments Ok {A} a.
Arguments Raise {A} e.

Definition M (F G A : Type) : Type := world F G -> result A * world F G.

Definition ret {F G A} (a : A) : M F G A := fun w => (Ok a, w).

Definition raise {F G A} (e : exn) : M F G A := fun w => (Raise e, w).

Definition bind {F G A B} (m : M F G A) (k : A -> M F G B) : M F G B :=
  fun w => match m w with
           | (Ok a, w') => k a w'
           | (Raise e, w') => (Raise e, w')
           end.

Declare Scope py_scope.
Delimit Scope py_scope with py.
Notation "x <- m ;; k" := (bind m (fun x => k))
  (at level 61, m at next level, right associativity) : py_scope.
Notation "m ;; k" := (bind m (fun _ => k))
  (at level 61, right associativity) : py_scope.
Local Open Scope py_scope.

(** Newline, and the two kinds of line [run] writes. *)
Definition nl : string := String (ascii_of_nat 10) EmptyString.

Definition EXIT_line : string := "EXIT" ++ nl.

(** [str(n)] for an int. *)
Definition str_int (n : Z) : string := NilZero.string_of_int (Z.to_int n).

(** [s.lower()], on ASCII letters. *)
Definition lower_ascii (c : ascii) : ascii :=
  let n := nat_of_ascii c in
  if (65 <=? n)%nat && (n <=? 90)%nat then ascii_of_nat (n + 32) else c.

Fixpoint lower (s : string) : string :=
  match s with
  | EmptyString => EmptyString
  | String c s' => String (lower_ascii c) (lower s')
  end.

(** [data[k]] on the decoded object. *)
Fixpoint lookup {F} (k : string) (data : list (string * field F))
  : option (field F) :=
  match data with
  | [] => None
  | (k', v) :: rest => if String.eqb k k' then Some v else lookup k rest
  end.

(** [limit and sent >= limit] (line 75). *)
Definition limit_reached (l : option Z) (sent : Z) : bool :=
  match l with
  | Some n => negb (n =? 0) && (n <=? sent)
  | None => false
  end.

(** [bool(duration)] for the optional argument. *)
Definition duration_set {F} `{PyFloat F} (d : option F) : bool :=
  match d with
  | Some x => truthy x
  | None => false
  end.

Section Program.

Context {F G : Type} {PF : PyFloat F} {RG : Rng F G}.

Local Abbreviation M := (M F G).

(** *** The effects [run] performs *)

Definition write (s : string) : M unit :=
  fun w => (Ok tt, World (rng w) (stdout w ++ [s]) (clock w) (reads w)).

Definition flush : M unit := ret tt.

Definition sleep (seconds : F) : M unit := ret tt.

Definition time_time : M F :=
  fun w => (Ok (clock w (reads w)),
            World (rng w) (stdout w) (clock w) (S (reads w))).

Definition draw {A} (f : G -> A * G) : M A :=
  fun w => let (a, g') := f (rng w) in
           (Ok a, World g' (stdout w) (clock w) (reads w)).

Definition seed_rng (s : Z) : M unit :=
  fun w => (Ok tt, World (random_seed s) (stdout w) (clock w) (reads w)).

Definition json_loads (msg : message F) : M (option (list (string * field F))) :=
  match msg with
  | JsonObject data => ret (Some data)
  | JsonOther => ret None
  | NotJson => raise JSONDecodeError
  end.

Definition getitem (data : option (list (string * field F))) (k : string)
  : M (field F) :=
  match data with
  | None => raise TypeError
  | Some d => match lookup k d with
              | Some v => ret v
              | None => raise (KeyError k)
              end
  end.

Definition float_of (v : field F) : M F :=
  match v with
  | Floatable x => ret x
  | BadText => raise ValueError
  | BadType => raise TypeError
  end.

(** *** The body of [for _ in range(burst)] (lines 88-96, without the
    counter) *)
Definition order_line (side : string) (price : F) (qty : Z) : string :=
  side ++ " " ++ repr price ++ " " ++ str_int qty ++ nl.

Definition jittered (mid jitter_bps : F) : F :=
  round_nd (fmul mid (fadd (lit 1) (fdiv jitter_bps (lit 10000)))) 2.

Definition mid_price (bid ask : F) : F := fdiv (fadd bid ask) (lit 2).

Definition side_of (u : F) : string :=
  if flt u (lit 0.5) then "BUY" else "SELL".

Definition emit_order (mid : F) : M unit :=
  u <- draw random ;;
  let side := side_of u in
  jitter_bps <- draw (uniform (lit (-8)) (lit 8)) ;;
  let price := jittered mid jitter_bps in
  qty <- draw (randint 1 5) ;;
  write (order_line side price qty).

(** The [for] loop: [n] orders, each followed by [sent += 1]. *)
Fixpoint emit_burst (n : nat) (mid : F) (sent : Z) : M Z :=
  match n with
  | O => ret sent
  | S n' => emit_order mid ;; emit_burst n' mid (sent + 1)
  end.

(** *** The stop conditions (lines 73-76): [true] is [break].
    [duration and ...] reads the clock only when [duration] is truthy. *)
Definition stop_check (cfg : config F) (start : F) (sent : Z) : M bool :=
  timed_out <- match duration cfg with
               | Some d => if truthy d
                           then now <- time_time ;;
                                ret (fge (fsub now start) d)
                           else ret false
               | None => ret false
               end ;;
  if timed_out then ret true
  else ret (limit_reached (limit cfg) sent).

(** *** One pass of the loop after the checks and [ws.recv()]
    (lines 80-101) *)
Definition iteration (cfg : config F) (msg : message F) (sent : Z) : M Z :=
  data <- json_loads msg ;;
  b <- getitem data "b" ;;
  bid <- float_of b ;;
  a <- getitem data "a" ;;
  ask <- float_of a ;;
  let mid := mid_price bid ask in
  sent' <- emit_burst (Z.to_nat (burst cfg)) mid sent ;;
  flush ;;
  sleep (rate cfg) ;;
  ret sent'.

(** *** [while True] (lines 71-101); the result is the final [sent] *)
Fixpoint loop (cfg : config F) (start : F) (msgs : list (message F))
  (sent : Z) : M Z :=
  stop <- stop_check cfg start sent ;;
  if stop then ret sent
  else match msgs with
       | [] => raise ConnectionClosed
       | msg :: rest =>
           sent' <- iteration cfg msg sent ;;
           loop cfg start rest sent'
       end.

Definition url_of (sym : string) : string :=
  "wss://stream.binance.us:9443/ws/" ++ lower sym ++ "@bookTicker".

(** *** [run] (lines 43-109) *)
Definition run (cfg : config F) (net : string -> endpoint F) : M unit :=
  match seed cfg with
  | Some s => seed_rng s
  | None => ret tt
  end ;;
  let url := url_of (symbol cfg) in
  start <- time_time ;;
  match net url with
  | Unreachable => raise OSError
  | Connected msgs =>
      loop cfg start msgs 0 ;;
      write EXIT_line ;;
      flush
  end.

End Program.

(* ------------------------------------------------------------------ *)
(** ** Floats as the rationals they denote *)

(** Round half to even, the rule of [round]. *)
Definition rne (y : Q) : Z :=
  let f := Qfloor y in
  match (y - inject_Z f ?= 1 # 2)%Q with
  | Lt => f
  | Gt => f + 1
  | Eq => if Z.even f then f else f + 1
  end.

(** [round(x, ndigits)] on an exact value. *)
Definition Qround_nd (x : Q) (ndigits : Z) : Q :=
  (inject_Z (rne (x * Qpower 10 ndigits)) / Qpower 10 ndigits)%Q.

Definition digit_char (d : Z) : ascii := ascii_of_nat (48 + Z.to_nat d).

(** Long division: the first [n] fractional digits of [r / den]. *)
Fixpoint frac_digits (n : nat) (r den : Z) : string :=
  match n with
  | O => EmptyString
  | S n' => String (digit_char (10 * r / den))
                   (frac_digits n' ((10 * r) mod den) den)
  end.

(** The number of fractional digits after which the expansion of [r / den]
    stops, cut at [fuel]. *)
Fixpoint frac_len (fuel : nat) (r den : Z) : nat :=
  match fuel with
  | O => O
  | S fuel' => if r =? 0 then O
               else S (frac_len fuel' ((10 * r) mod den) den)
  end.

Definition sign_text (x : Q) : string :=
  if Qle_bool 0 x then EmptyString else "-".

(** Fixed notation: the integer part, a point, and the fractional digits
    with no trailing zero, but at least one digit. *)
Definition repr_fixed (x : Q) : string :=
  let a := Z.abs (Qnum x) in
  let b := Zpos (Qden x) in
  let n := Nat.max 1 (frac_len 17 (a mod b) b) in
  sign_text x ++ str_int (a / b) ++ "." ++ frac_digits n (a mod b) b.

(** The decimal exponent [e] with [10^e <= a / b < 10^(e+1)], searched
    downwards from [hi]. *)
Fixpoint dec_exponent (fuel : nat) (hi : Z) (a b : Z) : Z :=
  match fuel with
  | O => hi
  | S fuel' =>
      if (if 0 <=? hi then b * 10 ^ hi <=? a else b <=? a * 10 ^ (- hi))
      then hi
      else dec_exponent fuel' (hi - 1) a b
  end.

Definition exponent_text (e : Z) : string :=
  (if e <? 0 then "e-" else "e+") ++
  (if Z.abs e <? 10 then "0" else EmptyString) ++ str_int (Z.abs e).

(** Exponent notation: one digit, the other digits after a point if there
    are any, and the exponent on two digits at least. *)
Definition repr_exp (x : Q) : string :=
  let a := Z.abs (Qnum x) in
  let b := Zpos (Qden x) in
  let e := dec_exponent 800 400 a b in
  let num := if 0 <=? e then a else a * 10 ^ (- e) in
  let den := if 0 <=? e then b * 10 ^ e else b in
  let n := frac_len 16 (num mod den) den in
  sign_text x ++ str_int (num / den) ++
  (if Nat.eqb n 0 then EmptyString else "." ++ frac_digits n (num mod den) den) ++
  exponent_text e.

(** [repr] of a float: exponent notation from [1e16] on and below [1e-4],
    fixed notation between them.  The digits are those of the exact
    value; an expansion that does not stop is cut. *)
Definition Qrepr (x : Q) : string :=
  if Qeq_bool x 0 then "0.0"
  else if Qle_bool (Qpower 10 16) (Qabs x)
          || negb (Qle_bool (Qpower 10 (-4)) (Qabs x))
       then repr_exp x
       else repr_fixed x.

#[export] Instance ExactFloat : PyFloat Q := {|
  lit q := q;
  fadd := Qplus;
  fsub := Qminus;
  fmul := Qmult;
  fdiv := Qdiv;
  flt x y := negb (Qle_bool y x);
  fge x y := Qle_bool y x;
  truthy x := negb (Qeq_bool x 0);
  round_nd := Qround_nd;
  repr := Qrepr
|}.

(* ------------------------------------------------------------------ *)
(** ** A generator that replays scripted draws

    The state is the list of the fractions [random()] will return; a
    fraction outside [[0, 1)] counts as 0, and so does every draw after the
    list is used up.  [uniform] is derived from [random()] as in
    Lib/random.py, [a + (b - a) * random()]; [randint] scales one draw to
    [a..b], where the library draws bits. *)

Definition replay : Type := list Q.

Definition replay_random (g : replay) : Q * replay :=
  match g with
  | [] => (0%Q, [])
  | u :: g' => (if Qle_bool 0 u && negb (Qle_bool 1 u) then u else 0%Q, g')
  end.

Definition replay_uniform (a b : Q) (g : replay) : Q * replay :=
  let (u, g') := replay_random g in ((a + (b - a) * u)%Q, g').

Definition replay_randint (a b : Z) (g : replay) : Z * replay :=
  let (u, g') := replay_random g in
  (a + Qfloor (u * inject_Z (b - a + 1)), g').

(** Seeding: the script is the orbit of a linear congruential step. *)
Definition lcg_step (s : Z) : Z :=
  (6364136223846793005 * s + 1442695040888963407) mod 2 ^ 64.

Fixpoint lcg_script (n : nat) (s : Z) : replay :=
  match n with
  | O => []
  | S n' => let s' := lcg_step s in
            ((s' / 2 ^ 11) # (2 ^ 53))%Q :: lcg_script n' s'
  end.

#[export] Instance ReplayRng : Rng Q replay := {|
  random_seed s := lcg_script 64 s;
  random := replay_random;
  uniform := replay_uniform;
  randint := replay_randint
|}.

(* ------------------------------------------------------------------ *)
(** ** A generator that records the calls made to it *)

Inductive call (F : Type) : Type :=
| CallRandom (u : F)                (* random() returned u *)
| CallUniform (a b x : F)           (* uniform(a, b) returned x *)
| CallRandint (a b n : Z).          (* randint(a, b) returned n *)
Arguments CallRandom {F} u.
Arguments CallUniform {F} a b x.
Arguments CallRandint {F} a b n.

Record traced (F G : Type) : Type := Traced {
  gen : G;
  calls : list (call F)
}.
Arguments Traced {F G} gen calls.
Arguments gen {F G} t.
Arguments calls {F G} t.

#[export] Instance TracedRng {F G : Type} {RG : Rng F G} : Rng F (traced F G) := {|
  random_seed s := Traced (random_seed s) [];
  random t := let (u, g') := random (gen t) in
              (u, Traced g' (calls t ++ [CallRandom u]));
  uniform a b t := let (x, g') := uniform a b (gen t) in
                   (x, Traced g' (calls t ++ [CallUniform a b x]));
  randint a b t := let (n, g') := randint a b (gen t) in
                   (n, Traced g' (calls t ++ [CallRandint a b n]))
|}.

(** The world without the record of the calls. *)
Definition erase {F G : Type} (w : world F (traced F G)) : world F G :=
  World (gen (rng w)) (stdout w) (clock w) (reads w).

(* ------------------------------------------------------------------ *)
(** ** Vocabulary of the statements *)

Section Statements.

Context {F G : Type} {PF : PyFloat F} {RG : Rng F G}.

(** The best bid and ask a message decodes to, when lines 80-83 raise
    nothing on it. *)
Definition quote_of (msg : message F) : option (F * F) :=
  match msg with
  | JsonObject data =>
      match lookup "b" data, lookup "a" data with
      | Some (Floatable bid), Some (Floatable ask) => Some (bid, ask)
      | _, _ => None
      end
  | _ => None
  end.

Definition decodable (msg : message F) : bool :=
  match quote_of msg with
  | Some _ => true
  | None => false
  end.

(** The exceptions of lines 80-83. *)
Definition decode_exn (e : exn) : Prop :=
  match e with
  | JSONDecodeError | TypeError | KeyError _ | ValueError => True
  | OSError | ConnectionClosed => False
  end.

(** The three values one order draws, with the generator it leaves. *)
Definition order_draws (g : G) : (F * F * Z) * G :=
  let (u, g1) := random g in
  let (j, g2) := uniform (lit (-8)) (lit 8) g1 in
  let (q, g3) := randint 1 5 g2 in
  ((u, j, q), g3).

Fixpoint burst_draws (n : nat) (g : G) : list (F * F * Z) * G :=
  match n with
  | O => ([], g)
  | S n' => let (d, g1) := order_draws g in
            let (ds, g2) := burst_draws n' g1 in
            (d :: ds, g2)
  end.

(** The line of an order, from the mid-price of its update and its draws. *)
Definition order_text (o : F * (F * F * Z)) : string :=
  let '(mid, (u, j, q)) := o in
  order_line (side_of u) (jittered mid j) q.

Definition is_order (line : string) : Prop :=
  exists side price qty,
    (side = "BUY" \/ side = "SELL") /\ line = order_line side price qty.

(** The order comes from an update of the feed. *)
Definition from_feed (msgs : list (message F)) (o : F * (F * F * Z)) : Prop :=
  exists msg bid ask,
    In msg msgs /\ quote_of msg = Some (bid, ask) /\
    fst o = mid_price bid ask.

(** What follows the order lines: the sentinel when [run] returns, nothing
    when it raises. *)
Definition sentinel {A} (r : result A) : list string :=
  match r with
  | Ok _ => [EXIT_line]
  | Raise _ => []
  end.

(** The generator the loop starts from (lines 62-63). *)
Definition initial_rng (cfg : config F) (w : world F G) : G :=
  match seed cfg with
  | Some s => random_seed s
  | None => rng w
  end.

(** The world in which the loop starts: the generator seeded if a seed
    was given, and one reading of the clock taken (line 66). *)
Definition at_loop_entry (cfg : config F) (w : world F G) : world F G :=
  World (initial_rng cfg w) (stdout w) (clock w) (S (reads w)).

Definition start_time (w : world F G) : F := clock w (reads w).

(** Orders per update: [range(burst)] is empty for a negative [burst]. *)
Definition per_update (cfg : config F) : Z := Z.of_nat (Z.to_nat (burst cfg)).

Definition feed_of (e : endpoint F) : list (message F) :=
  match e with
  | Unreachable => []
  | Connected msgs => msgs
  end.

(** The states in which the loop of [run] evaluates its stop conditions:
    the first time with [sent = 0], and again after each pass that neither
    stopped nor raised. *)
Inductive at_check (cfg : config F) (start : F)
  : list (message F) -> Z -> world F G -> Prop :=
| at_check_first msgs w :
    at_check cfg start msgs 0 w
| at_check_next msg rest sent w w1 sent' w' :
    at_check cfg start (msg :: rest) sent w ->
    stop_check cfg start sent w = (Ok false, w1) ->
    iteration cfg msg sent w1 = (Ok sent', w') ->
    at_check cfg start rest sent' w'.

Definition with_limit (cfg : config F) (l : option Z) : config F :=
  Config (symbol cfg) (rate cfg) (burst cfg) l (duration cfg) (seed cfg).

Definition with_duration (cfg : config F) (d : option F) : config F :=
  Config (symbol cfg) (rate cfg) (burst cfg) (limit cfg) d (seed cfg).

(** The calls one order makes to [random], in the order of lines 88-94. *)
Definition order_calls (d : F * F * Z) : list (call F) :=
  let '(u, j, q) := d in
  [CallRandom u; CallUniform (lit (-8)) (lit 8) j; CallRandint 1 5 q].

(** The order of draws the specification words: jitter, then side, then
    quantity.  Not the program: compared with [emit_order] below. *)
Definition emit_order_as_specified (mid : F) : M F G unit :=
  jitter_bps <- draw (uniform (lit (-8)) (lit 8)) ;;
  let price := jittered mid jitter_bps in
  u <- draw random ;;
  let side := side_of u in
  qty <- draw (randint 1 5) ;;
  write (order_line side price qty).

End Statements.

(** The text after the first point of a rendered number. *)
Fixpoint fraction_of (s : string) : string :=
  match s with
  | EmptyString => EmptyString
  | String c s' => if Ascii.eqb c "." then s' else fraction_of s'
  end.

Definition is_digit (c : ascii) : bool :=
  let n := nat_of_ascii c in (48 <=? n)%nat && (n <=? 57)%nat.

Fixpoint all_digits (s : string) : bool :=
  match s with
  | EmptyString => true
  | String c s' => is_digit c && all_digits s'
  end.

(** A decimal numeral with one or two fractional digits. *)
Definition short_decimal (s : string) : Prop :=
  exists sign int_part frac,
    s = sign ++ int_part ++ "." ++ frac /\
    (sign = EmptyString \/ sign = "-") /\
    int_part <> EmptyString /\ all_digits int_part = true /\
    all_digits frac = true /\
    (1 <= String.length frac <= 2)%nat.

(** The ranges of the three draws of an order. *)
Definition in_range (d : Q * Q * Z) : Prop :=
  let '(u, j, q) := d in
  (0 <= u /\ u < 1)%Q /\ (-8 <= j /\ j <= 8)%Q /\ 1 <= q <= 5.

(** A feed message with exactly the two fields [run] reads. *)
Definition ticker (bid ask : Q) : message Q :=
  JsonObject [("b", Floatable bid); ("a", Floatable ask)].

(** The endpoint every symbol is served the same messages from. *)
Definition serving (msgs : list (message Q)) : string -> endpoint Q :=
  fun _ => Connected msgs.

(** A world with nothing written yet, a clock stuck at 0 and a scripted
    generator. *)
Definition fresh (script : replay) : world Q replay :=
  World script [] (fun _ => 0%Q) 0%nat.

Definition fresh_traced (script : replay) : world Q (traced Q replay) :=
  World (Traced script []) [] (fun _ => 0%Q) 0%nat.

(** The defaults of the command line (lines 114-119). *)
Definition defaults : config Q :=
  Config "btcusdt" 0.15%Q 3 None None None.

(** Configurations and inputs of the examples. *)
Definition one_order : config Q :=
  Config "btcusdt" 0.15%Q 1 (Some 1) None None.

Definition limit_2_burst_3 : config Q :=
  Config "btcusdt" 0.15%Q 3 (Some 2) None None.

Definition seeded_42 : config Q :=
  Config "btcusdt" 0.15%Q 1 (Some 2) None (Some 42).

Definition script3 : replay := [0.25; 0.5; 0.6]%Q.

Definition script9 : replay :=
  [0.25; 0.5; 0.6; 0.7; 0.1; 0.99; 0.3; 0.3; 0.3]%Q.

(** Another world: other draws pending, a clock that runs, readings
    already taken. *)
Definition elsewhere : world Q replay :=
  World [0.9; 0.1]%Q [] (fun n => inject_Z (Z.of_nat n)) 5%nat.

(** Other arguments of [run], and another generator in the world. *)
Definition with_symbol {F : Type} (cfg : config F) (sym : string) : config F :=
  Config sym (rate cfg) (burst cfg) (limit cfg) (duration cfg) (seed cfg).

Definition with_seed {F : Type} (cfg : config F) (s : option Z) : config F :=
  Config (symbol cfg) (rate cfg) (burst cfg) (limit cfg) (duration cfg) s.

Definition with_rng {F G : Type} (w : world F G) (g : G) : world F G :=
  World g (stdout w) (clock w) (reads w).

(** Two messages on which lines 80-83 read the same: both decode to
    objects with the same values under "b" and under "a", or both are the
    same kind of text that is no object. *)
Definition same_fields {F : Type} (m1 m2 : message F) : Prop :=
  match m1, m2 with
  | JsonObject d1, JsonObject d2 =>
      lookup "b" d1 = lookup "b" d2 /\ lookup "a" d1 = lookup "a" d2
  | JsonOther, JsonOther => True
  | NotJson, NotJson => True
  | _, _ => False
  end.

(** More configurations and worlds of the examples. *)
Definition two_seconds : config Q :=
  Config "btcusdt" 0.15%Q 3 None (Some 2%Q) None.

Definition no_burst : config Q :=
  Config "btcusdt" 0.15%Q 0 (Some 2) None None.

Definition negative_limit : config Q :=
  Config "btcusdt" 0.15%Q 3 (Some (-1)) None None.

(** A world whose clock shows n at its n-th reading. *)
Definition ticking (script : replay) : world Q replay :=
  World script [] (fun n => inject_Z (Z.of_nat n)) 0%nat.

(** Divisions by the constants of the program, as products, for [lra]. *)
Ltac qconst :=
  unfold Qdiv in *;
  change (/ 10000)%Q with (1 # 10000)%Q in *;
  change (/ 100)%Q with (1 # 100)%Q in *;
  change (/ 2)%Q with (1 # 2)%Q in *;
  change (inject_Z 0) with 0%Q in *;
  change (inject_Z 1) with 1%Q in *.

(* ------------------------------------------------------------------ *)
(** ** The loop, step by step *)

Local Open Scope list_scope.

Section Loop.

Context {F G : Type} {PF : PyFloat F} {RG : Rng F G}.

Implicit Types (cfg : config F) (w : world F G) (msgs : list (message F)).

Lemma bind_ok {A B} (m : M F G A) (k : A -> M F G B) w a w' :
  m w = (Ok a, w') -> bind m k w = k a w'.
Proof. intros E. unfold bind. now rewrite E. Qed.

Lemma bind_raise {A B} (m : M F G A) (k : A -> M F G B) w e w' :
  m w = (Raise e, w') -> bind m k w = (Raise e, w').
Proof. intros E. unfold bind. now rewrite E. Qed.

(** One order: three draws, one line. *)
Lemma emit_order_eq mid w :
  emit_order mid w =
  (Ok tt, World (snd (order_draws (rng w)))
                (stdout w ++ [order_text (mid, fst (order_draws (rng w)))])
                (clock w) (reads w)).
Proof.
  unfold emit_order, order_draws, bind, draw, write. cbn.
  destruct (random (rng w)) as [u g1]. cbn.
  destruct (uniform (lit (-8)) (lit 8) g1) as [j g2]. cbn.
  destruct (randint 1 5 g2) as [q g3]. reflexivity.
Qed.

Lemma burst_draws_length n (g : G) :
  List.length (fst (burst_draws n g)) = n.
Proof.
  revert g. induction n as [|n IH]; intros g; cbn; [reflexivity|].
  destruct (order_draws g) as [d g1]. specialize (IH g1).
  destruct (burst_draws n g1) as [ds g2]. cbn in *. now rewrite IH.
Qed.

(** Draws of [a] orders followed by the draws of [b] orders. *)
Lemma burst_draws_add a b (g : G) :
  burst_draws (a + b) g =
  (fst (burst_draws a g) ++ fst (burst_draws b (snd (burst_draws a g))),
   snd (burst_draws b (snd (burst_draws a g)))).
Proof.
  revert g. induction a as [|a IH]; intros g; cbn.
  - now destruct (burst_draws b g).
  - destruct (order_draws g) as [d g1]. rewrite IH.
    destruct (burst_draws a g1) as [ds g2]. cbn.
    reflexivity.
Qed.

(** The [for] loop: [n] orders and [sent + n]. *)
Lemma emit_burst_eq n mid sent w :
  emit_burst n mid sent w =
  (Ok (sent + Z.of_nat n),
   World (snd (burst_draws n (rng w)))
         (stdout w ++ map (fun d => order_text (mid, d))
                          (fst (burst_draws n (rng w))))
         (clock w) (reads w)).
Proof.
  revert sent w. induction n as [|n IH]; intros sent w.
  - cbn. unfold ret. destruct w; cbn. now rewrite Z.add_0_r, app_nil_r.
  - cbn [emit_burst]. erewrite bind_ok by apply emit_order_eq.
    rewrite IH. cbn [rng stdout clock reads burst_draws].
    destruct (order_draws (rng w)) as [d g1]. cbn [fst snd].
    destruct (burst_draws n g1) as [ds g2]. cbn [fst snd map].
    rewrite <- app_assoc. cbn [app].
    f_equal. f_equal. lia.
Qed.

(** A decodable message: the pass draws and writes [burst] orders. *)
Lemma iteration_ok cfg msg bid ask sent w :
  quote_of msg = Some (bid, ask) ->
  iteration cfg msg sent w =
  emit_burst (Z.to_nat (burst cfg)) (mid_price bid ask) sent w.
Proof.
  intros Q. unfold iteration, quote_of in *.
  destruct msg as [data| |]; try discriminate.
  destruct (lookup "b" data) as [[b| |]|] eqn:Eb; try discriminate.
  destruct (lookup "a" data) as [[a| |]|] eqn:Ea; try discriminate.
  injection Q as <- <-.
  unfold bind, json_loads, getitem, float_of, ret, flush, sleep.
  rewrite Eb, Ea. cbn.
  now destruct (emit_burst _ _ _ w) as [[s|e] w'].
Qed.

(** A message that does not decode: the pass raises before anything is
    drawn or written. *)
Lemma iteration_raise cfg msg sent :
  quote_of msg = None ->
  exists e, decode_exn e /\
            forall w, iteration cfg msg sent w = (Raise e, w).
Proof.
  intros Q. unfold iteration, quote_of in *.
  unfold bind, json_loads, getitem, float_of, ret, raise.
  destruct msg as [data| |].
  - destruct (lookup "b" data) as [[b| |]|] eqn:Eb.
    + destruct (lookup "a" data) as [[a| |]|] eqn:Ea; try discriminate.
      * exists ValueError. now split.
      * exists TypeError. now split.
      * exists (KeyError "a"). now split.
    + exists ValueError. now split.
    + exists TypeError. now split.
    + exists (KeyError "b"). now split.
  - exists TypeError. now split.
  - exists JSONDecodeError. now split.
Qed.

(** Without a duration the check is the comparison with the limit, and the
    clock is not read. *)
Lemma stop_check_untimed cfg start sent w :
  duration_set (duration cfg) = false ->
  stop_check cfg start sent w =
  (Ok (limit_reached (limit cfg) sent), w).
Proof.
  unfold stop_check, duration_set, bind, ret.
  destruct (duration cfg) as [d|]; [intros ->|intros _]; reflexivity.
Qed.

(** The check writes nothing and draws nothing, and it never raises. *)
Lemma stop_check_effect cfg start sent w :
  exists b n,
    stop_check cfg start sent w =
    (Ok b, World (rng w) (stdout w) (clock w) n).
Proof.
  unfold stop_check, bind, ret, time_time.
  destruct (duration cfg) as [d|]; [destruct (truthy d)|]; cbn.
  - destruct (fge _ d); eexists _, _; reflexivity.
  - exists (limit_reached (limit cfg) sent), (reads w).
    destruct w; reflexivity.
  - exists (limit_reached (limit cfg) sent), (reads w).
    destruct w; reflexivity.
Qed.

Lemma loop_unfold cfg start msgs sent w :
  loop cfg start msgs sent w =
  bind (stop_check cfg start sent)
       (fun stop => if stop then ret sent
                    else match msgs with
                         | [] => raise ConnectionClosed
                         | msg :: rest =>
                             bind (iteration cfg msg sent)
                                  (fun sent' => loop cfg start rest sent')
                         end) w.
Proof. destruct msgs; reflexivity. Qed.

(** What a run of the loop leaves behind: the lines of some orders, each
    from an update of the feed, drawn one after the other from the
    generator; and the counter counts them. *)
Lemma loop_orders cfg start msgs sent w :
  exists orders : list (F * (F * F * Z)),
    stdout (snd (loop cfg start msgs sent w)) =
      stdout w ++ map order_text orders /\
    map snd orders = fst (burst_draws (List.length orders) (rng w)) /\
    rng (snd (loop cfg start msgs sent w)) =
      snd (burst_draws (List.length orders) (rng w)) /\
    Forall (from_feed msgs) orders /\
    (forall s, fst (loop cfg start msgs sent w) = Ok s ->
               s = sent + Z.of_nat (List.length orders)).
Proof.
  revert sent w. induction msgs as [|msg rest IH]; intros sent w;
    rewrite loop_unfold;
    destruct (stop_check_effect cfg start sent w) as (b & n & E);
    erewrite bind_ok by exact E; destruct b.
  1, 2, 3: exists []; cbn; rewrite app_nil_r;
    (repeat split; auto; intros s [= <-]; lia).
  destruct (quote_of msg) as [[bid ask]|] eqn:Q.
  - erewrite bind_ok
      by (rewrite (iteration_ok _ _ _ _ _ _ Q); apply emit_burst_eq).
    cbn [rng stdout clock reads].
    match goal with |- context [loop cfg start rest ?s ?w1] =>
      destruct (IH s w1) as (os & Hout & Hdr & Hrng & Hfeed & Hs) end.
    cbn [rng stdout] in *.
    set (k := Z.to_nat (burst cfg)) in *.
    exists (map (fun d => (mid_price bid ask, d))
                (fst (burst_draws k (rng w))) ++ os).
    assert (Hlen : List.length (map (fun d => (mid_price bid ask, d))
                               (fst (burst_draws k (rng w))) ++ os)
                   = (k + List.length os)%nat)
      by now rewrite length_app, length_map, burst_draws_length.
    rewrite Hlen, burst_draws_add. cbn [fst snd].
    repeat split.
    + rewrite Hout, map_app, map_map, app_assoc. reflexivity.
    + rewrite map_app, map_map, Hdr. cbn [snd]. now rewrite map_id.
    + exact Hrng.
    + apply Forall_app. split.
      * apply Forall_forall. intros o Ho. apply in_map_iff in Ho.
        destruct Ho as (d & <- & _). exists msg, bid, ask.
        cbn. auto.
      * eapply Forall_impl; [|exact Hfeed].
        intros o (m & b' & a' & Hin & Hq & Hm).
        exists m, b', a'. cbn. auto.
    + intros s Hs'. apply Hs in Hs'. lia.
  - destruct (iteration_raise cfg msg sent Q) as (e & _ & Er).
    erewrite bind_raise by apply Er.
    exists []. cbn. rewrite app_nil_r.
    repeat split; auto. discriminate.
Qed.

End Loop.

(* ------------------------------------------------------------------ *)
(** ** The run as a whole *)

Section Run.

Context {F G : Type} {PF : PyFloat F} {RG : Rng F G}.

Implicit Types (cfg : config F) (w : world F G) (msgs : list (message F)).

Lemma order_is_not_exit line : is_order line -> line <> EXIT_line.
Proof.
  intros (side & price & qty & [-> | ->] & ->); cbn; discriminate.
Qed.

Lemma order_text_is_order (o : F * (F * F * Z)) : is_order (order_text o).
Proof.
  destruct o as [mid [[u j] q]]. cbn. unfold side_of.
  destruct (flt u (lit 0.5)).
  - exists "BUY"%string, (jittered mid j), q. auto.
  - exists "SELL"%string, (jittered mid j), q. auto.
Qed.

Lemma orders_are_orders (orders : list (F * (F * F * Z))) :
  Forall is_order (map order_text orders).
Proof.
  apply Forall_forall. intros l Hl. apply in_map_iff in Hl.
  destruct Hl as (o & <- & _). apply order_text_is_order.
Qed.

Lemma no_exit_among_orders lines : Forall is_order lines -> ~ In EXIT_line lines.
Proof.
  intros H Hin. rewrite Forall_forall in H.
  exact (order_is_not_exit _ (H _ Hin) eq_refl).
Qed.

(** Lines 62-70: seeding, the clock, the connection. *)
Lemma run_unfold cfg net w :
  run cfg net w =
  match net (url_of (symbol cfg)) with
  | Unreachable => (Raise OSError, at_loop_entry cfg w)
  | Connected msgs =>
      bind (loop cfg (start_time w) msgs 0)
           (fun _ => bind (write EXIT_line) (fun _ => flush))
           (at_loop_entry cfg w)
  end.
Proof.
  unfold run, at_loop_entry, start_time, initial_rng.
  destruct w as [g out clk n].
  destruct (seed cfg) as [s|];
    unfold bind at 1 2; unfold seed_rng, ret, time_time, raise;
    cbn [rng stdout clock reads];
    destruct (net (url_of (symbol cfg))); reflexivity.
Qed.

(** Lines 103-109 run when the loop ends by [break], and only then. *)
Lemma run_connected cfg net msgs w :
  net (url_of (symbol cfg)) = Connected msgs ->
  run cfg net w =
  match loop cfg (start_time w) msgs 0 (at_loop_entry cfg w) with
  | (Ok _, w') =>
      (Ok tt, World (rng w') (stdout w' ++ [EXIT_line]) (clock w') (reads w'))
  | (Raise e, w') => (Raise e, w')
  end.
Proof.
  intros E. rewrite run_unfold, E. unfold bind, write, flush, ret.
  now destruct (loop _ _ _ _ _) as [[s|e] w'].
Qed.

(** The output of a run: the lines of some orders, then the sentinel if
    the run returns. *)
Lemma run_orders cfg net w :
  exists orders : list (F * (F * F * Z)),
    stdout (snd (run cfg net w)) =
      stdout w ++ map order_text orders ++ sentinel (fst (run cfg net w)) /\
    map snd orders =
      fst (burst_draws (List.length orders) (initial_rng cfg w)) /\
    rng (snd (run cfg net w)) =
      snd (burst_draws (List.length orders) (initial_rng cfg w)) /\
    Forall (from_feed (feed_of (net (url_of (symbol cfg))))) orders.
Proof.
  destruct (net (url_of (symbol cfg))) as [|msgs] eqn:E.
  - rewrite run_unfold, E. exists []. cbn. rewrite app_nil_r. auto.
  - rewrite (run_connected _ _ _ _ E).
    destruct (loop_orders cfg (start_time w) msgs 0 (at_loop_entry cfg w))
      as (os & Hout & Hdr & Hrng & Hfeed & _).
    exists os. cbn [feed_of].
    destruct (loop _ _ _ _ _) as [[s|e] w']; cbn [fst snd stdout rng] in *;
      rewrite Hout; cbn [sentinel]; rewrite ?app_nil_r, <- ?app_assoc; auto.
Qed.

(** A feed prefix that decodes, with no duration and the limit out of
    reach: the loop goes through it, one burst per message. *)
Lemma loop_through cfg start good rest sent w :
  duration_set (duration cfg) = false ->
  forallb decodable good = true ->
  0 <= sent ->
  limit_reached (limit cfg)
    (sent + per_update cfg * Z.of_nat (List.length good)) = false ->
  exists w' lines,
    loop cfg start (good ++ rest) sent w =
    loop cfg start rest
         (sent + per_update cfg * Z.of_nat (List.length good)) w' /\
    stdout w' = stdout w ++ lines /\
    Forall is_order lines /\
    Z.of_nat (List.length lines) =
      per_update cfg * Z.of_nat (List.length good).
Proof.
  intros Hd. revert sent w.
  induction good as [|msg good IH]; intros sent w Hg Hs Hl.
  - exists w, []. cbn. rewrite Z.mul_0_r, Z.add_0_r, app_nil_r. auto.
  - cbn in Hg. apply andb_true_iff in Hg. destruct Hg as [Hm Hg].
    unfold decodable in Hm.
    destruct (quote_of msg) as [[bid ask]|] eqn:Q; [clear Hm|discriminate].
    assert (Hp : 0 <= per_update cfg) by (unfold per_update; lia).
    assert (Hnow : limit_reached (limit cfg) sent = false).
    { unfold limit_reached in *. destruct (limit cfg) as [n|]; auto.
      apply andb_false_iff in Hl. apply andb_false_iff.
      destruct Hl as [Hl|Hl]; [now left|right].
      apply Z.leb_gt in Hl. apply Z.leb_gt. cbn [List.length] in Hl. nia. }
    change ((msg :: good) ++ rest) with (msg :: (good ++ rest)).
    rewrite loop_unfold.
    erewrite bind_ok by (rewrite stop_check_untimed by exact Hd;
                         rewrite Hnow; reflexivity).
    cbv beta iota.
    erewrite bind_ok
      by (rewrite (iteration_ok _ _ _ _ _ _ Q); apply emit_burst_eq).
    fold (per_update cfg).
    match goal with |- context [loop cfg start (good ++ rest) ?s ?w1] =>
      destruct (IH s w1) as (w' & lines & E & Hout & Hord & Hlen) end.
    + exact Hg.
    + lia.
    + replace (sent + per_update cfg +
               per_update cfg * Z.of_nat (List.length good))
        with (sent + per_update cfg *
                     Z.of_nat (List.length (msg :: good)))
        by (cbn [List.length]; lia).
      exact Hl.
    + cbn [stdout] in Hout.
      eexists w', (_ ++ lines). rewrite E. repeat split.
      * f_equal. cbn [List.length]. lia.
      * rewrite Hout, <- app_assoc. reflexivity.
      * apply Forall_app. split; [|exact Hord].
        rewrite <- (map_map (fun d => (mid_price bid ask, d)) order_text).
        apply orders_are_orders.
      * rewrite length_app, length_map, burst_draws_length.
        cbn [List.length]. unfold per_update in *. lia.
Qed.

(** The feed is used up: [ws.recv()] raises. *)
Lemma loop_feed_closed cfg start sent w :
  duration_set (duration cfg) = false ->
  limit_reached (limit cfg) sent = false ->
  loop cfg start [] sent w = (Raise ConnectionClosed, w).
Proof.
  intros Hd Hl. rewrite loop_unfold.
  erewrite bind_ok by (rewrite stop_check_untimed by exact Hd;
                       rewrite Hl; reflexivity).
  reflexivity.
Qed.

(** C1 (amended).  What a run writes is the lines of its orders, followed
    by the [EXIT] line when the run returns and by nothing when it raises;
    no order line is the [EXIT] line.  When the feed closes before a limit
    stops the loop (every message decodes, no duration, the limit out of
    reach), [ConnectionClosed] leaves [run] and the output is the order
    lines alone: nothing at all if the feed closes on the first receive. *)
Theorem exit_line_only_when_run_returns cfg net w :
  (exists lines,
      Forall is_order lines /\ ~ In EXIT_line lines /\
      stdout (snd (run cfg net w)) =
        stdout w ++ lines ++ sentinel (fst (run cfg net w))) /\
  (forall msgs,
      net (url_of (symbol cfg)) = Connected msgs ->
      forallb decodable msgs = true ->
      duration_set (duration cfg) = false ->
      limit_reached (limit cfg)
        (per_update cfg * Z.of_nat (List.length msgs)) = false ->
      fst (run cfg net w) = Raise ConnectionClosed /\
      exists lines,
        stdout (snd (run cfg net w)) = stdout w ++ lines /\
        Forall is_order lines /\
        Z.of_nat (List.length lines) =
          per_update cfg * Z.of_nat (List.length msgs)).
Proof.
  split.
  - destruct (run_orders cfg net w) as (os & Hout & _).
    exists (map order_text os). split; [apply orders_are_orders|].
    split; [apply no_exit_among_orders, orders_are_orders|exact Hout].
  - intros msgs E Hg Hd Hl. rewrite (run_connected _ _ _ _ E).
    destruct (loop_through cfg (start_time w) msgs [] 0 (at_loop_entry cfg w)
                Hd Hg (Z.le_refl 0) Hl)
      as (w' & lines & El & Hout & Hord & Hlen).
    rewrite app_nil_r in El. rewrite El.
    rewrite loop_feed_closed by assumption.
    cbn [fst snd]. split; [reflexivity|].
    exists lines. auto.
Qed.

(** C7 (amended).  When a message fails to decode (after a prefix of the
    feed that decodes, with no duration and the limit out of reach), the
    exception leaves [run]; what was written is the order lines of the
    prefix, [burst] per message, and no [EXIT] line. *)
Theorem decode_error_leaves_run_without_exit cfg net good bad rest w :
  net (url_of (symbol cfg)) = Connected (good ++ bad :: rest) ->
  forallb decodable good = true ->
  decodable bad = false ->
  duration_set (duration cfg) = false ->
  limit_reached (limit cfg)
    (per_update cfg * Z.of_nat (List.length good)) = false ->
  exists e lines,
    decode_exn e /\
    fst (run cfg net w) = Raise e /\
    stdout (snd (run cfg net w)) = stdout w ++ lines /\
    Forall is_order lines /\
    ~ In EXIT_line lines /\
    Z.of_nat (List.length lines) =
      per_update cfg * Z.of_nat (List.length good).
Proof.
  intros E Hg Hb Hd Hl. rewrite (run_connected _ _ _ _ E).
  destruct (loop_through cfg (start_time w) good (bad :: rest) 0
              (at_loop_entry cfg w) Hd Hg (Z.le_refl 0) Hl)
    as (w' & lines & El & Hout & Hord & Hlen).
  rewrite El, loop_unfold.
  erewrite bind_ok by (rewrite stop_check_untimed by exact Hd;
                       cbn [Z.add]; rewrite Hl; reflexivity).
  cbv beta iota.
  unfold decodable in Hb.
  destruct (quote_of bad) as [[bid ask]|] eqn:Q; [discriminate|].
  destruct (iteration_raise cfg bad
              (0 + per_update cfg * Z.of_nat (List.length good)) Q)
    as (e & He & Er).
  erewrite bind_raise by apply Er.
  exists e, lines. cbn [fst snd].
  repeat split; auto using no_exit_among_orders.
Qed.

End Run.

(* ------------------------------------------------------------------ *)
(** ** Limits: unset values, counting, determinism *)

Section Limits.

Context {F G : Type} {PF : PyFloat F} {RG : Rng F G}.

Implicit Types (cfg : config F) (w : world F G) (msgs : list (message F)).

(** Two configurations with the same checks and the same passes run the
    same loop. *)
Lemma loop_ext cfg1 cfg2 start :
  (forall sent w, stop_check cfg1 start sent w = stop_check cfg2 start sent w) ->
  (forall msg sent w, iteration cfg1 msg sent w = iteration cfg2 msg sent w) ->
  forall msgs sent w,
    loop cfg1 start msgs sent w = loop cfg2 start msgs sent w.
Proof.
  intros Hs Hi msgs. induction msgs as [|msg rest IH]; intros sent w;
    rewrite !loop_unfold; unfold bind; rewrite Hs;
    destruct (stop_check cfg2 start sent w) as [[[|]|e] w1]; try reflexivity.
  rewrite Hi. destruct (iteration cfg2 msg sent w1) as [[s|e] w2];
    [apply IH|reflexivity].
Qed.

Lemma run_ext cfg1 cfg2 net w :
  symbol cfg1 = symbol cfg2 -> seed cfg1 = seed cfg2 ->
  (forall start sent w',
      stop_check cfg1 start sent w' = stop_check cfg2 start sent w') ->
  (forall msg sent w',
      iteration cfg1 msg sent w' = iteration cfg2 msg sent w') ->
  run cfg1 net w = run cfg2 net w.
Proof.
  intros Hsym Hseed Hs Hi. rewrite !run_unfold.
  unfold at_loop_entry, initial_rng. rewrite Hsym, Hseed.
  destruct (net (url_of (symbol cfg2))) as [|msgs]; [reflexivity|].
  unfold bind. now rewrite (loop_ext cfg1 cfg2 _ (Hs _) Hi).
Qed.

(** C9.  A limit of 0 orders is no limit, and a duration that is a zero of
    the float type (its truth value is false) is no duration: the run is
    the same, result and final state, as with the argument left out. *)
Theorem zero_limit_is_no_limit cfg net w :
  run (with_limit cfg (Some 0)) net w = run (with_limit cfg None) net w /\
  (forall d, truthy d = false ->
             run (with_duration cfg (Some d)) net w =
             run (with_duration cfg None) net w).
Proof.
  split.
  - apply run_ext; reflexivity.
  - intros d Hd. apply run_ext; try reflexivity.
    intros start sent w'. unfold stop_check. cbn [with_duration duration].
    now rewrite Hd.
Qed.

(** With no duration the loop does not depend on the clock or on the start
    time. *)
Lemma loop_untimed cfg s1 s2 msgs sent w1 w2 :
  duration_set (duration cfg) = false ->
  rng w1 = rng w2 -> stdout w1 = stdout w2 ->
  fst (loop cfg s1 msgs sent w1) = fst (loop cfg s2 msgs sent w2) /\
  rng (snd (loop cfg s1 msgs sent w1)) = rng (snd (loop cfg s2 msgs sent w2)) /\
  stdout (snd (loop cfg s1 msgs sent w1)) =
    stdout (snd (loop cfg s2 msgs sent w2)).
Proof.
  intros Hd. revert sent w1 w2.
  induction msgs as [|msg rest IH]; intros sent w1 w2 Hr Ho;
    rewrite !loop_unfold;
    do 2 (erewrite bind_ok by (apply stop_check_untimed; exact Hd));
    destruct (limit_reached (limit cfg) sent); cbn; auto.
  destruct (quote_of msg) as [[bid ask]|] eqn:Q.
  - do 2 (erewrite bind_ok
            by (rewrite (iteration_ok _ _ _ _ _ _ Q); apply emit_burst_eq)).
    apply IH; cbn [rng stdout]; now rewrite ?Hr, ?Ho.
  - destruct (iteration_raise cfg msg sent Q) as (e & _ & Er).
    do 2 (erewrite bind_raise by apply Er). cbn. auto.
Qed.

(** C4.  Two runs with the same seed, the same configuration and the same
    feed write the same lines and end the same way, whatever the generator
    held before: with no duration limit whatever the clock shows in each,
    and with a duration limit when the clock shows the same in both. *)
Theorem seeded_runs_write_the_same cfg s net w1 w2 :
  seed cfg = Some s ->
  duration_set (duration cfg) = false \/
    (clock w1 = clock w2 /\ reads w1 = reads w2) ->
  stdout w1 = stdout w2 ->
  fst (run cfg net w1) = fst (run cfg net w2) /\
  stdout (snd (run cfg net w1)) = stdout (snd (run cfg net w2)) /\
  String.concat EmptyString (stdout (snd (run cfg net w1))) =
    String.concat EmptyString (stdout (snd (run cfg net w2))).
Proof.
  intros Hs Hd Ho.
  enough (fst (run cfg net w1) = fst (run cfg net w2) /\
          stdout (snd (run cfg net w1)) = stdout (snd (run cfg net w2)))
    as [H1 H2] by (rewrite H2; auto).
  rewrite !run_unfold.
  destruct Hd as [Hd|[Hc Hn]];
    [|unfold at_loop_entry, start_time, initial_rng;
      rewrite Hs, Ho, Hc, Hn; auto].
  destruct (net (url_of (symbol cfg))) as [|msgs]; [cbn; auto|].
  destruct (loop_untimed cfg (start_time w1) (start_time w2) msgs 0
              (at_loop_entry cfg w1) (at_loop_entry cfg w2) Hd)
    as (Hr & Hg & Hout).
  - unfold at_loop_entry, initial_rng. now rewrite Hs.
  - exact Ho.
  - unfold bind, write, flush, ret.
    destruct (loop cfg (start_time w1) msgs 0 (at_loop_entry cfg w1))
      as [[r1|e1] v1];
    destruct (loop cfg (start_time w2) msgs 0 (at_loop_entry cfg w2))
      as [[r2|e2] v2]; cbn in *; try discriminate.
    + now rewrite Hout.
    + injection Hr as ->. split; [reflexivity|assumption].
Qed.

(** A pass that returns has counted [burst] orders. *)
Lemma iteration_counts cfg msg sent w sent' w' :
  iteration cfg msg sent w = (Ok sent', w') ->
  sent' = sent + per_update cfg.
Proof.
  intros E. destruct (quote_of msg) as [[bid ask]|] eqn:Q.
  - rewrite (iteration_ok _ _ _ _ _ _ Q), emit_burst_eq in E.
    injection E as <- _. reflexivity.
  - destruct (iteration_raise cfg msg sent Q) as (e & _ & Er).
    rewrite Er in E. discriminate.
Qed.

Lemma at_check_multiple cfg start msgs sent w :
  at_check cfg start msgs sent w ->
  exists k, 0 <= k /\ sent = per_update cfg * k.
Proof.
  induction 1 as [msgs w|msg rest sent w w1 sent' w' _ IH _ Hi].
  - exists 0. lia.
  - destruct IH as (k & Hk & ->). apply iteration_counts in Hi.
    exists (k + 1). lia.
Qed.

(** The states of [at_check] are those the loop goes through: from any of
    them, the rest of the loop is the loop. *)
Lemma at_check_step cfg start msg rest sent w w1 sent' w' :
  stop_check cfg start sent w = (Ok false, w1) ->
  iteration cfg msg sent w1 = (Ok sent', w') ->
  loop cfg start (msg :: rest) sent w = loop cfg start rest sent' w'.
Proof.
  intros Hs Hi. rewrite loop_unfold.
  erewrite bind_ok by exact Hs. cbv beta iota.
  erewrite bind_ok by exact Hi. reflexivity.
Qed.

(** With a limit of [N] orders and no duration, on a feed whose first
    messages decode and are enough to reach [N], the loop ends by [break]
    with a counter that has just reached or passed [N]. *)
Lemma loop_stops_at_limit cfg start N good rest sent w :
  duration_set (duration cfg) = false ->
  limit cfg = Some N -> N <> 0 -> 1 <= burst cfg ->
  forallb decodable good = true ->
  N <= sent + burst cfg * Z.of_nat (List.length good) ->
  exists s', fst (loop cfg start (good ++ rest) sent w) = Ok s' /\
             N <= s' /\ (s' = sent \/ s' < N + burst cfg) /\
             (burst cfg | s' - sent).
Proof.
  intros Hd HN Hnz HB. revert sent w.
  assert (Hper : per_update cfg = burst cfg) by (unfold per_update; lia).
  assert (Hlim : forall sent, limit_reached (limit cfg) sent = (N <=? sent)).
  { intros sent. rewrite HN. cbn.
    destruct (Z.eqb_spec N 0); [contradiction|reflexivity]. }
  induction good as [|msg good IH]; intros sent w Hg Hle;
    rewrite loop_unfold;
    (erewrite bind_ok by (apply stop_check_untimed; exact Hd));
    rewrite Hlim; destruct (Z.leb_spec N sent) as [Hreached|Hnot].
  1, 3: exists sent; cbn; repeat split; auto;
        rewrite Z.sub_diag; apply Z.divide_0_r.
  - cbn [List.length] in Hle. lia.
  - cbn in Hg. apply andb_true_iff in Hg. destruct Hg as [Hm Hg].
    unfold decodable in Hm.
    destruct (quote_of msg) as [[bid ask]|] eqn:Q; [clear Hm|discriminate].
    change ((msg :: good) ++ rest) with (msg :: (good ++ rest)).
    cbv beta iota.
    erewrite bind_ok
      by (rewrite (iteration_ok _ _ _ _ _ _ Q); apply emit_burst_eq).
    fold (per_update cfg). rewrite Hper.
    match goal with |- context [loop cfg start (good ++ rest) ?s ?w1] =>
      destruct (IH s w1 Hg) as (s' & Es & H1 & H2 & H3) end.
    + cbn [List.length] in Hle. lia.
    + exists s'. repeat split; auto.
      * right. destruct H2; lia.
      * replace (s' - sent) with (s' - (sent + burst cfg) + burst cfg) by lia.
        apply Z.divide_add_r; [exact H3|apply Z.divide_refl].
Qed.

(** The same, for the run and the lines it writes. *)
Lemma run_stops_at_limit cfg net N good rest w :
  duration_set (duration cfg) = false ->
  limit cfg = Some N -> N <> 0 -> 1 <= burst cfg ->
  net (url_of (symbol cfg)) = Connected (good ++ rest) ->
  forallb decodable good = true ->
  N <= burst cfg * Z.of_nat (List.length good) ->
  exists lines,
    run cfg net w =
      (Ok tt, World (rng (snd (run cfg net w)))
                    (stdout w ++ lines ++ [EXIT_line])
                    (clock (snd (run cfg net w)))
                    (reads (snd (run cfg net w)))) /\
    Forall is_order lines /\
    N <= Z.of_nat (List.length lines) /\
    (List.length lines = 0%nat \/
     Z.of_nat (List.length lines) < N + burst cfg) /\
    (burst cfg | Z.of_nat (List.length lines)).
Proof.
  intros Hd HN Hnz HB E Hg Hle.
  destruct (loop_stops_at_limit cfg (start_time w) N good rest 0
              (at_loop_entry cfg w) Hd HN Hnz HB Hg Hle)
    as (s' & Es & H1 & H2 & H3).
  destruct (loop_orders cfg (start_time w) (good ++ rest) 0
              (at_loop_entry cfg w)) as (os & Hout & _ & _ & _ & Hs).
  specialize (Hs s' Es). rewrite Z.sub_0_r in H3.
  rewrite (run_connected _ _ _ _ E).
  destruct (loop cfg (start_time w) (good ++ rest) 0 (at_loop_entry cfg w))
    as [[s|e] w1]; cbn [fst snd] in *; [|discriminate].
  exists (map order_text os). cbn [rng stdout clock reads].
  rewrite Hout, length_map, <- app_assoc. cbn [at_loop_entry stdout].
  repeat split.
  - apply orders_are_orders.
  - lia.
  - destruct H2; [left|right]; lia.
  - replace (Z.of_nat (List.length os)) with s' by lia. exact H3.
Qed.


(** C10.  Each time the loop evaluates its stop conditions, [sent] is a
    multiple of [burst].  So when a limit [N] (any int but 0, which is no
    limit) ends a run on a feed that delivers enough updates, the number
    of order lines before [EXIT] is the least multiple of [burst] that is
    at least [N], among the multiples a count can take. *)
Theorem sent_is_a_multiple_of_burst cfg :
  1 <= burst cfg ->
  (forall start msgs sent w,
      at_check cfg start msgs sent w -> (burst cfg | sent)) /\
  (forall net N good rest w,
      limit cfg = Some N -> N <> 0 ->
      duration_set (duration cfg) = false ->
      net (url_of (symbol cfg)) = Connected (good ++ rest) ->
      forallb decodable good = true ->
      N <= burst cfg * Z.of_nat (List.length good) ->
      exists lines,
        fst (run cfg net w) = Ok tt /\
        stdout (snd (run cfg net w)) = stdout w ++ lines ++ [EXIT_line] /\
        Forall is_order lines /\
        (burst cfg | Z.of_nat (List.length lines)) /\
        N <= Z.of_nat (List.length lines) /\
        (forall m, 0 <= m -> N <= burst cfg * m ->
                   Z.of_nat (List.length lines) <= burst cfg * m)).
Proof.
  intros HB. split.
  - intros start msgs sent w H.
    destruct (at_check_multiple _ _ _ _ _ H) as (k & _ & ->).
    exists k. unfold per_update. lia.
  - intros net N good rest w HN Hnz Hd E Hg Hle.
    destruct (run_stops_at_limit cfg net N good rest w Hd HN Hnz HB E Hg Hle)
      as (lines & Er & Hord & Hge & Hlt & Hdiv).
    exists lines. rewrite Er. cbn [fst snd stdout].
    repeat split; auto.
    intros m Hm HNm. destruct Hdiv as [j Hj].
    destruct Hlt as [Hz|Hlt]; [rewrite Hz; cbn; nia|].
    assert (j * burst cfg < (m + 1) * burst cfg) by lia.
    assert (j < m + 1) by (apply Z.mul_lt_mono_pos_r with (burst cfg); lia).
    nia.
Qed.

End Limits.

(* ------------------------------------------------------------------ *)
(** ** The order of the draws *)

Section Recording.

Context {F G : Type} {PF : PyFloat F} {RG : Rng F G}.

Implicit Types (cfg : config F) (t : traced F G) (w : world F (traced F G)).

(** The recording generator draws what the generator under it draws, and
    adds the three calls of the order to its record. *)
Lemma traced_order_draws t :
  fst (order_draws t) = fst (order_draws (gen t)) /\
  gen (snd (order_draws t)) = snd (order_draws (gen t)) /\
  calls (snd (order_draws t)) =
    calls t ++ order_calls (fst (order_draws (gen t))).
Proof.
  unfold order_draws. cbn [random uniform randint TracedRng].
  destruct (random (gen t)) as [u g1]. cbn [gen calls].
  destruct (uniform (lit (-8)) (lit 8) g1) as [j g2]. cbn [gen calls].
  destruct (randint 1 5 g2) as [q g3]. cbn [fst snd gen calls order_calls].
  rewrite <- !app_assoc. auto.
Qed.

Lemma traced_burst_draws n t :
  fst (burst_draws n t) = fst (burst_draws n (gen t)) /\
  gen (snd (burst_draws n t)) = snd (burst_draws n (gen t)) /\
  calls (snd (burst_draws n t)) =
    calls t ++ flat_map order_calls (fst (burst_draws n (gen t))).
Proof.
  revert t. induction n as [|n IH]; intros t; cbn [burst_draws].
  - cbn. now rewrite app_nil_r.
  - destruct (traced_order_draws t) as (H1 & H2 & H3).
    destruct (order_draws t) as [d t1].
    destruct (order_draws (gen t)) as [d' g1]. cbn [fst snd] in *.
    subst d' g1. destruct (IH t1) as (I1 & I2 & I3).
    destruct (burst_draws n t1) as [ds t2].
    destruct (burst_draws n (gen t1)) as [ds' g2]. cbn [fst snd] in *.
    subst ds' g2. rewrite I3, H3. cbn [flat_map].
    rewrite <- app_assoc. auto.
Qed.

(** C3 (amended).  Over a generator that records its calls, a run adds to
    the record, for every order it writes and in the order of the lines,
    the three calls [random()], [uniform(-8, 8)], [randint(1, 5)] in that
    order; the first returns the number [u] that decides the side, the
    second the jitter [j] of the price, the third the quantity [q] of the
    line ([order_text]).  So each order draws its side first, then its
    jitter, then its quantity. *)
Theorem draws_are_side_then_jitter_then_quantity cfg net w :
  exists orders : list (F * (F * F * Z)),
    stdout (snd (run cfg net w)) =
      stdout w ++ map order_text orders ++ sentinel (fst (run cfg net w)) /\
    calls (rng (snd (run cfg net w))) =
      calls (initial_rng cfg w) ++ flat_map order_calls (map snd orders).
Proof.
  destruct (run_orders cfg net w) as (os & Hout & Hdr & Hrng & _).
  exists os. split; [exact Hout|].
  destruct (traced_burst_draws (List.length os) (initial_rng cfg w))
    as (H1 & _ & H3).
  rewrite Hrng, H3, Hdr, H1. reflexivity.
Qed.

(** The record is a ghost: the check, the pass, the loop and the run do
    the same with and without it. *)
Lemma stop_check_erase cfg start sent w :
  fst (stop_check cfg start sent w) = fst (stop_check cfg start sent (erase w)) /\
  erase (snd (stop_check cfg start sent w)) =
    snd (stop_check cfg start sent (erase w)).
Proof.
  unfold stop_check, bind, ret, time_time.
  destruct (duration cfg) as [d|]; [destruct (truthy d)|]; cbn;
    try (destruct (fge _ d)); cbn; auto.
Qed.

Lemma loop_erase cfg start msgs sent w :
  fst (loop cfg start msgs sent w) = fst (loop cfg start msgs sent (erase w)) /\
  erase (snd (loop cfg start msgs sent w)) =
    snd (loop cfg start msgs sent (erase w)).
Proof.
  revert sent w. induction msgs as [|msg rest IH]; intros sent w;
    rewrite !loop_unfold;
    destruct (stop_check_erase cfg start sent w) as [Hb Hw];
    destruct (stop_check_effect cfg start sent w) as (b & n & E);
    destruct (stop_check_effect cfg start sent (erase w)) as (b' & n' & E');
    rewrite E, E' in Hb, Hw; cbn [fst snd] in Hb, Hw;
    injection Hb as <-;
    (erewrite bind_ok by exact E); (erewrite bind_ok by exact E');
    destruct b; cbn [ret raise fst snd]; auto.
  destruct (quote_of msg) as [[bid ask]|] eqn:Q.
  - do 2 (erewrite bind_ok
            by (rewrite (iteration_ok _ _ _ _ _ _ Q); apply emit_burst_eq)).
    cbn [rng stdout clock reads erase] in *.
    match goal with |- context [loop cfg start rest ?s ?w1] =>
      destruct (IH s w1) as [I1 I2] end.
    destruct (traced_burst_draws (Z.to_nat (burst cfg)) (rng w))
      as (H1 & H2 & _).
    unfold erase in I1, I2 at 2. cbn [rng stdout clock reads] in I1, I2.
    rewrite H1, H2 in I1, I2.
    injection Hw as Hn. rewrite <- Hn, H1. split; assumption.
  - destruct (iteration_raise cfg msg sent Q) as (e & _ & Er).
    destruct (@iteration_raise F (traced F G) PF _ cfg msg sent Q)
      as (e' & _ & Er').
    pose proof (Er (erase (World (rng w) (stdout w) (clock w) n))) as E1.
    do 2 (erewrite bind_raise by first [apply Er'|apply Er]).
    cbn [fst snd].
    assert (e' = e) as ->.
    { pose proof (Er' (World (rng w) (stdout w) (clock w) n)) as E2.
      unfold iteration, bind, json_loads, getitem, float_of, ret, raise in E1, E2.
      unfold quote_of in Q.
      destruct msg as [data| |]; try congruence.
      destruct (lookup "b" data) as [[x| |]|]; try congruence.
      destruct (lookup "a" data) as [[y| |]|]; congruence. }
    split; [reflexivity|]. rewrite <- Hw. reflexivity.
Qed.

Lemma run_erase cfg net w :
  fst (run cfg net w) = fst (run cfg net (erase w)) /\
  erase (snd (run cfg net w)) = snd (run cfg net (erase w)).
Proof.
  rewrite !run_unfold.
  assert (He : erase (at_loop_entry cfg w) = at_loop_entry cfg (erase w)).
  { unfold erase, at_loop_entry, initial_rng. cbn [rng stdout clock reads].
    now destruct (seed cfg). }
  destruct (net (url_of (symbol cfg))) as [|msgs]; [cbn [fst snd]; auto|].
  destruct (loop_erase cfg (start_time w) msgs 0 (at_loop_entry cfg w))
    as [H1 H2].
  rewrite He in H1, H2.
  change (start_time (erase w)) with (start_time w).
  unfold bind, write, flush, ret.
  destruct (loop cfg (start_time w) msgs 0 (at_loop_entry cfg w))
    as [[r|e] v];
  destruct (loop cfg (start_time w) msgs 0 (at_loop_entry cfg (erase w)))
    as [[r'|e'] v']; cbn [fst snd] in *; try discriminate.
  - subst v'. auto.
  - injection H1 as ->. auto.
Qed.

End Recording.

(* ------------------------------------------------------------------ *)
(** ** Prices, quantities and their text, on exact floats *)

Section Rounding.

Local Open Scope Q_scope.

Lemma round2_eq x : Qround_nd x 2 = inject_Z (rne (x * 100)) / 100.
Proof. reflexivity. Qed.

(** Rounding to the nearest integer moves a value by a half at most. *)
Lemma rne_near y : - (1 # 2) <= inject_Z (rne y) - y <= 1 # 2.
Proof.
  unfold rne.
  pose proof (Qfloor_le y) as H1. pose proof (Qlt_floor y) as H2.
  rewrite inject_Z_plus in H2.
  destruct (y - inject_Z (Qfloor y) ?= 1 # 2) eqn:E.
  - apply Qeq_alt in E.
    destruct (Z.even (Qfloor y)); rewrite ?inject_Z_plus; qconst; lra.
  - apply Qlt_alt in E. qconst; lra.
  - apply Qgt_alt in E. rewrite inject_Z_plus. qconst; lra.
Qed.

Lemma rne_pos y : 1 # 2 < y -> (1 <= rne y)%Z.
Proof.
  intros H. pose proof (rne_near y) as N.
  assert (0 < inject_Z (rne y)) as P by lra.
  rewrite <- (Zlt_Qlt 0) in P. lia.
Qed.

Lemma rne_nonneg y : 0 <= y -> (0 <= rne y)%Z.
Proof.
  intros H. pose proof (rne_near y) as N.
  assert (-1 < inject_Z (rne y)) as P by lra.
  rewrite <- (Zlt_Qlt (-1)) in P. lia.
Qed.

(** [round(x, 2)] is a whole number of hundredths, half a hundredth from
    [x] at most. *)
Lemma round2_hundredths x :
  Qround_nd x 2 * 100 == inject_Z (rne (x * 100)).
Proof. rewrite round2_eq. qconst. lra. Qed.

Lemma round2_near x : Qabs (Qround_nd x 2 - x) <= 1 # 200.
Proof.
  rewrite round2_eq. pose proof (rne_near (x * 100)) as N.
  apply Qabs_Qle_condition. qconst. split; lra.
Qed.

(** The price of an order stays within 8 basis points of the mid-price, up
    to the rounding. *)
Lemma jitter_band (mid j : Q) :
  -8 <= j <= 8 ->
  Qabs (Qround_nd (mid * (1 + j / 10000)) 2 - mid)
    <= (8 # 10000) * Qabs mid + (1 # 200).
Proof.
  intros [A B]. rewrite round2_eq.
  pose proof (rne_near (mid * (1 + j / 10000) * 100)) as N.
  apply Qabs_Qle_condition.
  destruct (Qlt_le_dec mid 0) as [C|C].
  - rewrite (Qabs_neg mid) by lra.
    assert (0 <= (- mid) * (8 - j)) by (apply Qmult_le_0_compat; lra).
    assert (0 <= (- mid) * (j + 8)) by (apply Qmult_le_0_compat; lra).
    qconst. split; lra.
  - rewrite (Qabs_pos mid) by lra.
    assert (0 <= mid * (8 - j)) by (apply Qmult_le_0_compat; lra).
    assert (0 <= mid * (j + 8)) by (apply Qmult_le_0_compat; lra).
    qconst. split; lra.
Qed.

Lemma jittered_nonneg (mid j : Q) :
  -8 <= j <= 8 -> 0 <= mid -> 0 <= Qround_nd (mid * (1 + j / 10000)) 2.
Proof.
  intros [A B] C. rewrite round2_eq.
  assert (0 <= mid * (j + 8)) by (apply Qmult_le_0_compat; lra).
  assert (0 <= rne (mid * (1 + j / 10000) * 100))%Z as P.
  { apply rne_nonneg. qconst. lra. }
  rewrite (Zle_Qle 0) in P. qconst. lra.
Qed.

Lemma jittered_pos (mid j : Q) :
  -8 <= j <= 8 -> 1 # 100 <= mid -> 0 < Qround_nd (mid * (1 + j / 10000)) 2.
Proof.
  intros [A B] C. rewrite round2_eq.
  assert (0 <= (mid - (1 # 100)) * (j + 8)) by (apply Qmult_le_0_compat; lra).
  assert (1 <= rne (mid * (1 + j / 10000) * 100))%Z as P.
  { apply rne_pos. qconst. lra. }
  rewrite (Zle_Qle 1) in P. qconst. lra.
Qed.

End Rounding.

Section Rendering.

Lemma uint_digits d : all_digits (NilEmpty.string_of_uint d) = true.
Proof. induction d; cbn; auto. Qed.

(** [str(n)] of a natural number: digits, and at least one. *)
Lemma str_int_digits z :
  0 <= z -> str_int z <> EmptyString /\ all_digits (str_int z) = true.
Proof.
  intros Hz. unfold str_int.
  destruct z as [|p|p]; [cbn; split; [discriminate|reflexivity]| |lia].
  cbn [Z.to_int NilZero.string_of_int]. unfold NilZero.string_of_uint.
  destruct (Pos.to_uint p) eqn:E;
    try (split; [cbn; discriminate|apply uint_digits]).
  cbn. split; [discriminate|reflexivity].
Qed.

Lemma str_int_quantity q :
  1 <= q <= 5 ->
  In (str_int q) ["1"; "2"; "3"; "4"; "5"]%string.
Proof.
  intros H.
  assert (q = 1 \/ q = 2 \/ q = 3 \/ q = 4 \/ q = 5) as D by lia.
  repeat (destruct D as [->|D]; [cbn; tauto|]). subst. cbn. tauto.
Qed.

Lemma digit_char_digit d : 0 <= d <= 9 -> is_digit (digit_char d) = true.
Proof.
  intros H.
  assert (d = 0 \/ d = 1 \/ d = 2 \/ d = 3 \/ d = 4 \/ d = 5 \/ d = 6 \/
          d = 7 \/ d = 8 \/ d = 9) as D by lia.
  repeat (destruct D as [->|D]; [reflexivity|]). subst. reflexivity.
Qed.

Lemma frac_digits_shape n r b :
  0 <= r < b ->
  all_digits (frac_digits n r b) = true /\
  String.length (frac_digits n r b) = n.
Proof.
  revert r. induction n as [|n IH]; intros r Hr;
    cbn [frac_digits all_digits String.length]; [auto|].
  assert (0 <= (10 * r) mod b < b) as Hm by (apply Z.mod_pos_bound; lia).
  destruct (IH _ Hm) as [I1 I2]. rewrite I1, I2, digit_char_digit; auto.
  split; [apply Z.div_pos; lia|].
  enough (10 * r / b < 10) by lia. apply Z.div_lt_upper_bound; lia.
Qed.

(** The expansion of a whole number of hundredths stops after two
    fractional digits. *)
Lemma frac_len_two r b :
  0 < b -> (100 * r) mod b = 0 -> (frac_len 17 r b <= 2)%nat.
Proof.
  intros Hb H. change 17%nat with (S (S (S 14))). cbn [frac_len].
  destruct (r =? 0); [lia|].
  destruct ((10 * r) mod b =? 0); [lia|].
  rewrite Z.mul_mod_idemp_r, Z.mul_assoc by lia. change (10 * 10) with 100.
  rewrite H. cbn. lia.
Qed.

(** The text of a whole number of hundredths below [1e16]: fixed notation
    with one or two fractional digits. *)
Lemma Qrepr_short p k :
  (p * 100 == inject_Z k)%Q -> (Qabs p < Qpower 10 16)%Q ->
  short_decimal (Qrepr p).
Proof.
  intros Hk Hb. unfold Qrepr.
  destruct (Qeq_bool p 0) eqn:E0.
  { exists EmptyString, "0"%string, "0"%string. cbn.
    repeat split; auto; discriminate. }
  apply Qeq_bool_neq in E0.
  assert (Hbig : Qle_bool (Qpower 10 16) (Qabs p) = false).
  { destruct (Qle_bool (Qpower 10 16) (Qabs p)) eqn:E; [|reflexivity].
    apply Qle_bool_iff in E. exfalso. apply (Qlt_not_le _ _ Hb E). }
  assert (Hnum : Qnum p * 100 = k * Zpos (Qden p)).
  { unfold Qeq in Hk. cbn in Hk. lia. }
  assert (Habs : Z.abs (Qnum p) * 100 = Z.abs k * Zpos (Qden p)).
  { rewrite <- (Z.abs_eq (Zpos (Qden p))) at 1 by lia.
    rewrite <- Z.abs_mul, <- Hnum, Z.abs_mul. reflexivity. }
  assert (Hsmall : Qle_bool (Qpower 10 (-4)) (Qabs p) = true).
  { apply Qle_bool_iff. change (Qpower 10 (-4)) with (1 # 10000)%Q.
    assert (Qnum p <> 0).
    { intros Hz. apply E0. unfold Qeq. cbn. rewrite Hz. reflexivity. }
    assert (k <> 0) by (intros ->; lia).
    destruct p as [a b]. unfold Qle, Qabs. cbn [Qnum Qden] in *. nia. }
  rewrite Hbig, Hsmall. cbn [orb negb]. unfold repr_fixed.
  set (a := Z.abs (Qnum p)). set (b := Zpos (Qden p)).
  assert (Hb0 : 0 < b) by (unfold b; lia).
  assert (Hr : 0 <= a mod b < b) by (apply Z.mod_pos_bound; lia).
  assert (H100 : (100 * (a mod b)) mod b = 0).
  { rewrite Z.mul_mod_idemp_r by lia.
    replace (100 * a) with (Z.abs k * b) by (unfold a, b; lia).
    apply Z.mod_mul. lia. }
  pose proof (frac_len_two _ _ Hb0 H100) as Hlen.
  set (n := Nat.max 1 (frac_len 17 (a mod b) b)).
  destruct (frac_digits_shape n _ _ Hr) as [F1 F2].
  destruct (str_int_digits (a / b)) as [S1 S2]; [apply Z.div_pos; lia|].
  exists (sign_text p), (str_int (a / b)), (frac_digits n (a mod b) b).
  repeat split; auto.
  - unfold sign_text. destruct (Qle_bool 0 p); auto.
  - rewrite F2. unfold n. lia.
  - rewrite F2. unfold n. lia.
Qed.

End Rendering.

(** The scripted generator keeps the ranges of the library. *)
Lemma replay_random_range g :
  (0 <= fst (replay_random g) /\ fst (replay_random g) < 1)%Q.
Proof.
  destruct g as [|u g]; cbn; [split; [apply Qle_refl|reflexivity]|].
  destruct (Qle_bool 0 u) eqn:E0; cbn; [|split; [apply Qle_refl|reflexivity]].
  destruct (Qle_bool 1 u) eqn:E1; cbn; [split; [apply Qle_refl|reflexivity]|].
  apply Qle_bool_iff in E0. split; [exact E0|].
  apply Qnot_le_lt. intros H. apply Qle_bool_iff in H. congruence.
Qed.

Lemma replay_ranges : RngRanges replay.
Proof.
  constructor; cbn [random uniform randint ReplayRng].
  - apply replay_random_range.
  - intros a b g Hab. unfold replay_uniform.
    pose proof (replay_random_range g) as [H0 H1].
    destruct (replay_random g) as [u g']. cbn [fst] in *.
    assert (0 <= (b - a) * u)%Q by (apply Qmult_le_0_compat; lra).
    assert (0 <= (b - a) * (1 - u))%Q by (apply Qmult_le_0_compat; lra).
    split; lra.
  - intros a b g Hab. unfold replay_randint.
    pose proof (replay_random_range g) as [H0 H1].
    destruct (replay_random g) as [u g']. cbn [fst] in *.
    set (n := b - a + 1).
    assert (Hn : (1 <= inject_Z n)%Q)
      by (rewrite <- (Zle_Qle 1); unfold n; lia).
    assert (0 <= u * inject_Z n)%Q by (apply Qmult_le_0_compat; lra).
    assert (0 <= (1 - u) * inject_Z n)%Q by (apply Qmult_le_0_compat; lra).
    assert (0 <= (1 - u) * (inject_Z n - 1))%Q
      by (apply Qmult_le_0_compat; lra).
    assert (L : 0 <= Qfloor (u * inject_Z n))
      by (change 0 with (Qfloor 0); now apply Qfloor_resp_le).
    assert (U : Qfloor (u * inject_Z n) < n).
    { rewrite Zlt_Qlt. eapply Qle_lt_trans; [apply Qfloor_le|].
      assert (0 < (1 - u) * inject_Z n)%Q
        by (apply Qmult_lt_0_compat; lra).
      lra. }
    subst n. lia.
Qed.

#[export] Existing Instance replay_ranges.

Section Draws.

Context {F G : Type} {PF : PyFloat F} {RG : Rng F G}.

(** Every element of a sequence of draws is the draws of one order, from
    the generator as the orders before it left it. *)
Lemma burst_draws_each n (g : G) d :
  In d (fst (burst_draws n g)) -> exists g', d = fst (order_draws g').
Proof.
  revert g. induction n as [|n IH]; intros g; cbn [burst_draws].
  - intros [].
  - destruct (order_draws g) as [d0 g1] eqn:E.
    specialize (IH g1). destruct (burst_draws n g1) as [ds g2].
    cbn [fst] in *. intros [<-|Hin]; [|auto].
    exists g. now rewrite E.
Qed.

End Draws.

Section Exact.

Context {G : Type} {RG : Rng Q G} {RR : RngRanges G}.

Implicit Types (cfg : config Q) (w : world Q G) (o : Q * (Q * Q * Z)).

Local Open Scope Q_scope.

Lemma order_draws_in_range (g : G) : in_range (fst (order_draws g)).
Proof.
  unfold order_draws, in_range.
  pose proof (random_range g) as Hu.
  destruct (random g) as [u g1]. cbn [fst] in Hu.
  pose proof (uniform_range (-8) 8 g1 ltac:(discriminate)) as Hj.
  change (uniform (lit (-8)) (lit 8) g1) with (uniform (-8) 8 g1).
  destruct (uniform (-8) 8 g1) as [j g2]. cbn [fst] in Hj.
  pose proof (randint_range 1 5 g2 ltac:(lia)) as Hq.
  destruct (randint 1 5 g2) as [q g3]. cbn [fst] in *. auto.
Qed.

(** The orders of a run, with the ranges of their draws. *)
Lemma run_orders_in_range cfg net w :
  exists orders : list (Q * (Q * Q * Z)),
    stdout (snd (run cfg net w)) =
      stdout w ++ map order_text orders ++ sentinel (fst (run cfg net w)) /\
    map snd orders =
      fst (burst_draws (List.length orders) (initial_rng cfg w)) /\
    Forall (fun o => from_feed (feed_of (net (url_of (symbol cfg)))) o /\
                     in_range (snd o)) orders.
Proof.
  destruct (run_orders cfg net w) as (os & Hout & Hdr & _ & Hfeed).
  exists os. repeat split; auto.
  apply Forall_forall. intros o Ho. split.
  - rewrite Forall_forall in Hfeed. auto.
  - assert (In (snd o) (map snd os)) as Hin by now apply in_map.
    rewrite Hdr in Hin. apply burst_draws_each in Hin.
    destruct Hin as (g' & ->). apply order_draws_in_range.
Qed.




End Exact.

(* ------------------------------------------------------------------ *)
(** ** The theorems at concrete inputs *)

Section Examples.

Local Open Scope Q_scope.

(** C1, as stated, fails: the feed closes on the first receive and the
    output is empty, not the [EXIT] line. *)
Lemma closed_feed_leaves_no_exit :
  fst (run defaults (serving []) (fresh [])) = Raise ConnectionClosed /\
  stdout (snd (run defaults (serving []) (fresh []))) = [] /\
  String.concat EmptyString (stdout (snd (run defaults (serving []) (fresh []))))
    <> EXIT_line.
Proof. repeat split; try reflexivity. vm_compute. discriminate. Qed.

Lemma exit_line_only_when_run_returns_witness :
  fst (run defaults (serving [ticker 100.00 100.02]) (fresh script9)) =
    Raise ConnectionClosed /\
  exists lines,
    stdout (snd (run defaults (serving [ticker 100.00 100.02])
                     (fresh script9))) =
      stdout (fresh script9) ++ lines /\
    Forall is_order lines /\
    Z.of_nat (List.length lines) =
      (per_update defaults * Z.of_nat (List.length [ticker 100.00 100.02]))%Z.
Proof.
  apply (proj2 (exit_line_only_when_run_returns
                  defaults (serving [ticker 100.00 100.02]) (fresh script9))
               [ticker 100.00 100.02]); reflexivity.
Defined.

(** C7, as stated, fails: the message lacks the field "a", [KeyError]
    leaves [run], and no [EXIT] line is written. *)
Lemma missing_field_leaves_no_exit :
  run defaults (serving [JsonObject [("b"%string, Floatable 100)]]) (fresh [])
    = (Raise (KeyError "a"), World [] [] (fun _ => 0) 1%nat) /\
  ~ In EXIT_line
       (stdout (snd (run defaults
                         (serving [JsonObject [("b"%string, Floatable 100)]])
                         (fresh [])))).
Proof. split; [reflexivity|]. vm_compute. tauto. Qed.

Lemma decode_error_leaves_run_without_exit_witness :
  exists e lines,
    decode_exn e /\
    fst (run defaults (serving [ticker 100.00 100.02; NotJson])
             (fresh script9)) = Raise e /\
    stdout (snd (run defaults (serving [ticker 100.00 100.02; NotJson])
                     (fresh script9))) = stdout (fresh script9) ++ lines /\
    Forall is_order lines /\
    ~ In EXIT_line lines /\
    Z.of_nat (List.length lines) =
      (per_update defaults * Z.of_nat (List.length [ticker 100.00 100.02]))%Z.
Proof.
  apply (decode_error_leaves_run_without_exit
           defaults (serving [ticker 100.00 100.02; NotJson])
           [ticker 100.00 100.02] NotJson [] (fresh script9));
    reflexivity.
Defined.



Lemma sent_is_a_multiple_of_burst_witness :
  exists lines,
    fst (run limit_2_burst_3 (serving [ticker 100.00 100.02])
             (fresh script9)) = Ok tt /\
    stdout (snd (run limit_2_burst_3 (serving [ticker 100.00 100.02])
                     (fresh script9))) =
      stdout (fresh script9) ++ lines ++ [EXIT_line] /\
    Forall is_order lines /\
    (burst limit_2_burst_3 | Z.of_nat (List.length lines))%Z /\
    (2 <= Z.of_nat (List.length lines))%Z /\
    (forall m, (0 <= m)%Z -> (2 <= burst limit_2_burst_3 * m)%Z ->
               (Z.of_nat (List.length lines) <= burst limit_2_burst_3 * m)%Z).
Proof.
  apply (proj2 (sent_is_a_multiple_of_burst limit_2_burst_3
                  ltac:(vm_compute; discriminate))
               (serving [ticker 100.00 100.02]) 2%Z
               [ticker 100.00 100.02] [] (fresh script9));
    first [reflexivity | discriminate | vm_compute; discriminate].
Defined.

(** C3, as stated, fails: the first call of an order is [random()], for
    the side, and the jitter is drawn second.  With the draws 0.25, 0.5,
    0.6 pending, the program writes a BUY at the mid-price; drawing in the
    order of the specification would write a SELL four basis points
    below it. *)
Lemma side_is_drawn_before_jitter :
  calls (rng (snd (run one_order (serving [ticker 100.00 100.00])
                       (fresh_traced script3)))) =
    [CallRandom 0.25; CallUniform (-8) 8 0.0; CallRandint 1 5 4] /\
  stdout (snd (emit_order 100 (fresh script3))) =
    [("BUY 100.0 4" ++ nl)%string] /\
  stdout (snd (emit_order_as_specified 100 (fresh script3))) =
    [("SELL 99.96 4" ++ nl)%string] /\
  emit_order 100 (fresh script3) <> emit_order_as_specified 100 (fresh script3).
Proof. repeat split; try reflexivity. vm_compute. discriminate. Qed.

Lemma seeded_runs_write_the_same_witness :
  fst (run seeded_42 (serving [ticker 50000.00 50000.50; ticker 50000.10 50000.40])
           (fresh script9)) =
  fst (run seeded_42 (serving [ticker 50000.00 50000.50; ticker 50000.10 50000.40])
           elsewhere) /\
  stdout (snd (run seeded_42
                   (serving [ticker 50000.00 50000.50; ticker 50000.10 50000.40])
                   (fresh script9))) =
  stdout (snd (run seeded_42
                   (serving [ticker 50000.00 50000.50; ticker 50000.10 50000.40])
                   elsewhere)) /\
  String.concat EmptyString
    (stdout (snd (run seeded_42
                      (serving [ticker 50000.00 50000.50; ticker 50000.10 50000.40])
                      (fresh script9)))) =
  String.concat EmptyString
    (stdout (snd (run seeded_42
                      (serving [ticker 50000.00 50000.50; ticker 50000.10 50000.40])
                      elsewhere))).
Proof.
  apply (seeded_runs_write_the_same seeded_42 42%Z
           (serving [ticker 50000.00 50000.50; ticker 50000.10 50000.40])
           (fresh script9) elsewhere); [reflexivity|left|]; reflexivity.
Defined.

Lemma zero_limit_is_no_limit_witness :
  run (with_duration limit_2_burst_3 (Some 0))
      (serving [ticker 100.00 100.02]) (fresh script9) =
  run (with_duration limit_2_burst_3 None)
      (serving [ticker 100.00 100.02]) (fresh script9).
Proof.
  apply (proj2 (zero_limit_is_no_limit limit_2_burst_3
                  (serving [ticker 100.00 100.02]) (fresh script9)) 0).
  reflexivity.
Defined.






End Examples.

(* ------------------------------------------------------------------ *)
(** ** How a run ends *)

Section Ending.

Context {F G : Type} {PF : PyFloat F} {RG : Rng F G}.

Implicit Types (cfg : config F) (w : world F G) (msgs : list (message F)).

(** With a duration the check reads the clock once, and the duration is
    compared before the limit. *)
Lemma stop_check_timed cfg start sent w d :
  duration cfg = Some d -> truthy d = true ->
  stop_check cfg start sent w =
  (Ok (if fge (fsub (clock w (reads w)) start) d then true
       else limit_reached (limit cfg) sent),
   World (rng w) (stdout w) (clock w) (S (reads w))).
Proof.
  intros Hd Ht. unfold stop_check, bind, ret, time_time. rewrite Hd, Ht.
  cbn [clock reads rng stdout].
  now destruct (fge (fsub (clock w (reads w)) start) d).
Qed.

(** While neither condition can hold, the loop goes on until an exception
    ends it. *)
Lemma loop_never_breaks cfg start msgs sent w :
  duration_set (duration cfg) = false ->
  (forall k : nat,
      limit_reached (limit cfg) (sent + per_update cfg * Z.of_nat k) = false) ->
  exists e, fst (loop cfg start msgs sent w) = Raise e.
Proof.
  intros Hd. revert sent w.
  induction msgs as [|msg rest IH]; intros sent w Hl;
    rewrite loop_unfold;
    (erewrite bind_ok by (apply stop_check_untimed; exact Hd));
    pose proof (Hl 0%nat) as H0;
    rewrite Z.mul_0_r, Z.add_0_r in H0; rewrite H0; cbv beta iota.
  - exists ConnectionClosed. reflexivity.
  - destruct (quote_of msg) as [[bid ask]|] eqn:Q.
    + erewrite bind_ok
        by (rewrite (iteration_ok _ _ _ _ _ _ Q); apply emit_burst_eq).
      apply IH. intros k. fold (per_update cfg).
      replace (sent + per_update cfg + per_update cfg * Z.of_nat k)
        with (sent + per_update cfg * Z.of_nat (S k)) by lia.
      apply Hl.
    + destruct (iteration_raise cfg msg sent Q) as (e & _ & Er).
      erewrite bind_raise by apply Er. exists e. reflexivity.
Qed.

Lemma unset_limit_never_reached cfg :
  limit cfg = None \/ limit cfg = Some 0 ->
  forall s, limit_reached (limit cfg) s = false.
Proof. intros [-> | ->] s; reflexivity. Qed.

Lemma run_never_breaks cfg net w :
  duration_set (duration cfg) = false ->
  limit cfg = None \/ limit cfg = Some 0 ->
  exists e, fst (run cfg net w) = Raise e.
Proof.
  intros Hd Hl.
  rewrite run_unfold. destruct (net (url_of (symbol cfg))) as [|msgs].
  - exists OSError. reflexivity.
  - destruct (loop_never_breaks cfg (start_time w) msgs 0
                (at_loop_entry cfg w) Hd) as [e He].
    + intros k. now apply unset_limit_never_reached.
    + exists e. unfold bind.
      destruct (loop cfg (start_time w) msgs 0 (at_loop_entry cfg w))
        as [[s|e'] w']; cbn [fst] in *; congruence.
Qed.

(** X1.  With neither a duration nor a limit (left out or 0), a run never
    returns and never writes the [EXIT] line: an exception ends it, and
    what it wrote is order lines. *)
Theorem run_without_stop_condition_never_returns cfg net w :
  duration_set (duration cfg) = false ->
  limit cfg = None \/ limit cfg = Some 0 ->
  exists e lines,
    fst (run cfg net w) = Raise e /\
    stdout (snd (run cfg net w)) = stdout w ++ lines /\
    Forall is_order lines /\ ~ In EXIT_line lines.
Proof.
  intros Hd Hl.
  destruct (run_never_breaks cfg net w Hd Hl) as [e He].
  destruct (run_orders cfg net w) as (os & Hout & _).
  exists e, (map order_text os). rewrite He in Hout. cbn [sentinel] in Hout.
  rewrite app_nil_r in Hout.
  repeat split; auto using orders_are_orders.
  apply no_exit_among_orders, orders_are_orders.
Qed.

(** A run that returns without a limit was stopped by the clock. *)
Lemma loop_stops_on_clock cfg start d msgs sent w s :
  duration cfg = Some d -> truthy d = true ->
  (forall s', limit_reached (limit cfg) s' = false) ->
  fst (loop cfg start msgs sent w) = Ok s ->
  clock (snd (loop cfg start msgs sent w)) = clock w /\
  (reads w < reads (snd (loop cfg start msgs sent w)))%nat /\
  fge (fsub (clock w (pred (reads (snd (loop cfg start msgs sent w)))))
            start) d = true /\
  forall i,
    (reads w <= i < pred (reads (snd (loop cfg start msgs sent w))))%nat ->
    fge (fsub (clock w i) start) d = false.
Proof.
  intros Hd Ht Hl. revert sent w.
  induction msgs as [|msg rest IH]; intros sent w;
    rewrite loop_unfold;
    (erewrite bind_ok by (apply stop_check_timed; eassumption));
    rewrite Hl;
    destruct (fge (fsub (clock w (reads w)) start) d) eqn:E; cbv beta iota.
  1, 3: intros _; cbn; repeat split; auto; intros i Hi; lia.
  - cbn. discriminate.
  - destruct (quote_of msg) as [[bid ask]|] eqn:Q.
    + erewrite bind_ok
        by (rewrite (iteration_ok _ _ _ _ _ _ Q); apply emit_burst_eq).
      cbn [rng stdout clock reads].
      match goal with |- context [loop cfg start rest ?s1 ?w1] =>
        specialize (IH s1 w1); set (out := loop cfg start rest s1 w1) in * end.
      cbn [clock reads] in IH. intros H.
      destruct (IH H) as (I1 & I2 & I3 & I4).
      repeat split; auto; try lia.
      intros i Hi. destruct (Nat.eq_dec i (reads w)) as [->|Hne]; [exact E|].
      apply I4. lia.
    + destruct (iteration_raise cfg msg sent Q) as (e & _ & Er).
      erewrite bind_raise by apply Er. cbn. discriminate.
Qed.

(** X2.  A run that returns with no limit (left out or 0) has a duration,
    and it stopped at the first check of the loop at which the clock
    showed the duration elapsed since [start]: at the last reading of the
    clock [now - start >= duration] holds, and at every reading before it
    in the loop it does not. *)
Theorem returning_run_without_limit_stopped_on_clock cfg net w :
  limit cfg = None \/ limit cfg = Some 0 ->
  fst (run cfg net w) = Ok tt ->
  exists d,
    duration cfg = Some d /\ truthy d = true /\
    clock (snd (run cfg net w)) = clock w /\
    (S (reads w) < reads (snd (run cfg net w)))%nat /\
    fge (fsub (clock w (pred (reads (snd (run cfg net w)))))
              (clock w (reads w))) d = true /\
    forall i,
      (S (reads w) <= i < pred (reads (snd (run cfg net w))))%nat ->
      fge (fsub (clock w i) (clock w (reads w))) d = false.
Proof.
  intros Hl Hok.
  destruct (duration_set (duration cfg)) eqn:Hd.
  2: { destruct (run_never_breaks cfg net w Hd Hl) as [e He]. congruence. }
  unfold duration_set in Hd. destruct (duration cfg) as [d|] eqn:Ed;
    [|discriminate].
  exists d. split; [reflexivity|]. split; [exact Hd|].
  destruct (net (url_of (symbol cfg))) as [|msgs] eqn:E.
  { rewrite run_unfold, E in Hok. discriminate. }
  rewrite (run_connected _ _ _ _ E) in *.
  pose proof (loop_stops_on_clock cfg (start_time w) d msgs 0
                (at_loop_entry cfg w)) as L.
  destruct (loop cfg (start_time w) msgs 0 (at_loop_entry cfg w))
    as [[s|e] w'] eqn:El; [|discriminate].
  specialize (L s Ed Hd (unset_limit_never_reached cfg Hl) eq_refl).
  cbn [fst snd clock reads at_loop_entry] in *. exact L.
Qed.

(** X3.  When the duration has already elapsed at the first check, the run
    returns at once: it receives no message (whatever the feed holds),
    draws nothing, reads the clock twice and writes the [EXIT] line
    alone. *)
Theorem elapsed_duration_stops_before_first_receive cfg net msgs d w :
  net (url_of (symbol cfg)) = Connected msgs ->
  duration cfg = Some d -> truthy d = true ->
  fge (fsub (clock w (S (reads w))) (clock w (reads w))) d = true ->
  run cfg net w =
  (Ok tt, World (initial_rng cfg w) (stdout w ++ [EXIT_line]) (clock w)
                (S (S (reads w)))).
Proof.
  intros E Hd Ht Hge. rewrite (run_connected _ _ _ _ E), loop_unfold.
  erewrite bind_ok by (apply stop_check_timed; eassumption).
  unfold at_loop_entry, start_time in *. cbn [clock reads rng stdout].
  rewrite Hge. reflexivity.
Qed.

(** X4.  A negative limit, with no duration, is reached before the first
    receive: the run returns at once with the [EXIT] line alone, whatever
    the feed holds. *)
Theorem negative_limit_stops_before_first_receive cfg net msgs N w :
  net (url_of (symbol cfg)) = Connected msgs ->
  duration_set (duration cfg) = false ->
  limit cfg = Some N -> N < 0 ->
  run cfg net w =
  (Ok tt, World (initial_rng cfg w) (stdout w ++ [EXIT_line]) (clock w)
                (S (reads w))).
Proof.
  intros E Hd HN Hneg. rewrite (run_connected _ _ _ _ E), loop_unfold.
  erewrite bind_ok by (apply stop_check_untimed; exact Hd).
  rewrite HN. unfold limit_reached.
  destruct (Z.eqb_spec N 0); [lia|].
  destruct (Z.leb_spec N 0); [|lia]. reflexivity.
Qed.

(** The exception that ends the loop tells what was wrong with the
    feed. *)
Lemma loop_raise_cause cfg start msgs sent w e :
  fst (loop cfg start msgs sent w) = Raise e ->
  (e = ConnectionClosed /\ forallb decodable msgs = true) \/
  (decode_exn e /\ forallb decodable msgs = false).
Proof.
  revert sent w. induction msgs as [|msg rest IH]; intros sent w;
    rewrite loop_unfold;
    destruct (stop_check_effect cfg start sent w) as (b & n & E);
    (erewrite bind_ok by exact E); destruct b; cbv beta iota;
    try (cbn; discriminate).
  - cbn. intros [= <-]. auto.
  - cbn [forallb]. unfold decodable at 1 3.
    destruct (quote_of msg) as [[bid ask]|] eqn:Q.
    + erewrite bind_ok
        by (rewrite (iteration_ok _ _ _ _ _ _ Q); apply emit_burst_eq).
      cbn [andb]. apply IH.
    + destruct (iteration_raise cfg msg sent Q) as (e' & He' & Er).
      erewrite bind_raise by apply Er. cbn. intros [= <-]. auto.
Qed.


(** The loop writes whole bursts: as many as the messages it went through,
    and it draws for these orders only. *)
Lemma loop_bursts cfg start msgs sent w :
  exists (lines : list string) (k : nat),
    stdout (snd (loop cfg start msgs sent w)) = stdout w ++ lines /\
    Forall is_order lines /\
    (k <= List.length msgs)%nat /\
    List.length lines = (Z.to_nat (burst cfg) * k)%nat /\
    rng (snd (loop cfg start msgs sent w)) =
      snd (burst_draws (List.length lines) (rng w)).
Proof.
  revert sent w. induction msgs as [|msg rest IH]; intros sent w;
    rewrite loop_unfold;
    destruct (stop_check_effect cfg start sent w) as (b & n & E);
    (erewrite bind_ok by exact E); destruct b; cbv beta iota.
  1, 2, 3: exists [], 0%nat; cbn; rewrite app_nil_r;
    repeat split; auto; lia.
  destruct (quote_of msg) as [[bid ask]|] eqn:Q.
  - erewrite bind_ok
      by (rewrite (iteration_ok _ _ _ _ _ _ Q); apply emit_burst_eq).
    cbn [rng stdout clock reads].
    match goal with |- context [loop cfg start rest ?s ?w1] =>
      destruct (IH s w1) as (ls & k & Hout & Hord & Hk & Hlen & Hrng) end.
    cbn [rng stdout] in *.
    set (b := Z.to_nat (burst cfg)) in *.
    exists (map (fun d => order_text (mid_price bid ask, d))
                (fst (burst_draws b (rng w))) ++ ls), (S k).
    assert (Hl : List.length
                   (map (fun d => order_text (mid_price bid ask, d))
                        (fst (burst_draws b (rng w))) ++ ls)
                 = (b + List.length ls)%nat)
      by now rewrite length_app, length_map, burst_draws_length.
    rewrite Hl, burst_draws_add. cbn [fst snd List.length].
    repeat split.
    + rewrite Hout, app_assoc. reflexivity.
    + apply Forall_app. split; [|exact Hord].
      rewrite <- (map_map (fun d => (mid_price bid ask, d)) order_text).
      apply orders_are_orders.
    + lia.
    + rewrite Hlen. lia.
    + exact Hrng.
  - destruct (iteration_raise cfg msg sent Q) as (e & _ & Er).
    erewrite bind_raise by apply Er.
    exists [], 0%nat. cbn. rewrite app_nil_r. repeat split; auto; lia.
Qed.

Lemma run_bursts cfg net w :
  exists (lines : list string) (k : nat),
    stdout (snd (run cfg net w)) =
      stdout w ++ lines ++ sentinel (fst (run cfg net w)) /\
    Forall is_order lines /\
    (k <= List.length (feed_of (net (url_of (symbol cfg)))))%nat /\
    List.length lines = (Z.to_nat (burst cfg) * k)%nat /\
    rng (snd (run cfg net w)) =
      snd (burst_draws (List.length lines) (initial_rng cfg w)).
Proof.
  destruct (net (url_of (symbol cfg))) as [|msgs] eqn:E.
  - rewrite run_unfold, E. exists [], 0%nat. cbn. rewrite app_nil_r.
    repeat split; auto; lia.
  - rewrite (run_connected _ _ _ _ E).
    destruct (loop_bursts cfg (start_time w) msgs 0 (at_loop_entry cfg w))
      as (ls & k & Hout & Hord & Hk & Hlen & Hrng).
    exists ls, k. cbn [feed_of].
    destruct (loop _ _ _ _ _) as [[s|e] w']; cbn [fst snd stdout rng] in *;
      rewrite Hout; cbn [sentinel]; rewrite ?app_nil_r, <- ?app_assoc; auto.
Qed.


(** X7.  With a burst of 0 or less the [for] loop is empty: a run writes
    no order line and draws nothing; and with no duration and no negative
    limit it never returns, since the counter stays at 0. *)
Theorem nonpositive_burst_writes_no_order cfg net w :
  burst cfg <= 0 ->
  stdout (snd (run cfg net w)) = stdout w ++ sentinel (fst (run cfg net w)) /\
  rng (snd (run cfg net w)) = initial_rng cfg w /\
  (duration_set (duration cfg) = false ->
   (forall N, limit cfg = Some N -> 0 <= N) ->
   exists e, fst (run cfg net w) = Raise e).
Proof.
  intros Hb.
  destruct (run_bursts cfg net w) as (ls & k & Hout & _ & _ & Hlen & Hrng).
  replace (Z.to_nat (burst cfg)) with 0%nat in Hlen by lia.
  destruct ls; [|discriminate]. split; [exact Hout|]. split; [exact Hrng|].
  intros Hd HN. rewrite run_unfold.
  destruct (net (url_of (symbol cfg))) as [|msgs].
  - exists OSError. reflexivity.
  - destruct (loop_never_breaks cfg (start_time w) msgs 0
                (at_loop_entry cfg w) Hd) as [e He].
    + intros j. unfold per_update.
      replace (Z.to_nat (burst cfg)) with 0%nat by lia. cbn [Z.of_nat].
      rewrite Z.mul_0_l, Z.add_0_r. unfold limit_reached.
      destruct (limit cfg) as [N|] eqn:EN; [|reflexivity].
      specialize (HN N eq_refl).
      destruct (Z.eqb_spec N 0); [reflexivity|].
      destruct (Z.leb_spec N 0); [lia|reflexivity].
    + exists e. unfold bind.
      destruct (loop cfg (start_time w) msgs 0 (at_loop_entry cfg w))
        as [[s|e'] w']; cbn [fst] in *; congruence.
Qed.

(** Once the limit is reached, what follows in the feed is not received. *)
Lemma loop_ignores_rest cfg start N good rest1 rest2 sent w :
  duration_set (duration cfg) = false ->
  limit cfg = Some N -> N <> 0 -> 1 <= burst cfg ->
  forallb decodable good = true ->
  N <= sent + burst cfg * Z.of_nat (List.length good) ->
  loop cfg start (good ++ rest1) sent w =
  loop cfg start (good ++ rest2) sent w.
Proof.
  intros Hd HN Hnz HB. revert sent w.
  assert (Hper : per_update cfg = burst cfg) by (unfold per_update; lia).
  assert (Hlim : forall sent, limit_reached (limit cfg) sent = (N <=? sent)).
  { intros sent. rewrite HN. cbn.
    destruct (Z.eqb_spec N 0); [contradiction|reflexivity]. }
  induction good as [|msg good IH]; intros sent w Hg Hle;
    rewrite !loop_unfold;
    do 2 (erewrite bind_ok by (apply stop_check_untimed; exact Hd));
    rewrite Hlim; destruct (Z.leb_spec N sent) as [Hreached|Hnot];
    try reflexivity.
  - cbn [List.length] in Hle. lia.
  - cbn in Hg. apply andb_true_iff in Hg. destruct Hg as [Hm Hg].
    unfold decodable in Hm.
    destruct (quote_of msg) as [[bid ask]|] eqn:Q; [clear Hm|discriminate].
    change ((msg :: good) ++ rest1) with (msg :: (good ++ rest1)).
    change ((msg :: good) ++ rest2) with (msg :: (good ++ rest2)).
    cbv beta iota.
    do 2 (erewrite bind_ok
            by (rewrite (iteration_ok _ _ _ _ _ _ Q); apply emit_burst_eq)).
    fold (per_update cfg). rewrite Hper.
    apply IH; [exact Hg|]. cbn [List.length] in Hle. lia.
Qed.

(** X8.  Once the limit is reached the run receives nothing more: with a
    limit [N] (not 0), no duration and a feed whose first messages decode
    and suffice to reach [N], the run is the same whatever follows them in
    the feed, be it text that does not decode. *)
Theorem run_ignores_feed_after_limit cfg net1 net2 N good rest1 rest2 w :
  limit cfg = Some N -> N <> 0 -> 1 <= burst cfg ->
  duration_set (duration cfg) = false ->
  net1 (url_of (symbol cfg)) = Connected (good ++ rest1) ->
  net2 (url_of (symbol cfg)) = Connected (good ++ rest2) ->
  forallb decodable good = true ->
  N <= burst cfg * Z.of_nat (List.length good) ->
  run cfg net1 w = run cfg net2 w.
Proof.
  intros HN Hnz HB Hd E1 E2 Hg Hle.
  rewrite (run_connected _ _ _ _ E1), (run_connected _ _ _ _ E2).
  now rewrite (loop_ignores_rest cfg (start_time w) N good rest1 rest2 0
                 (at_loop_entry cfg w) Hd HN Hnz HB Hg Hle).
Qed.

End Ending.

(* ------------------------------------------------------------------ *)
(** ** What a run reads of its input *)

Section Reading.

Context {F G : Type} {PF : PyFloat F} {RG : Rng F G}.

Implicit Types (cfg : config F) (w : world F G) (msgs : list (message F)).

(** A field under another key does not change what is found under [k]. *)
Lemma lookup_other_key (k k' : string) (v : field F) pre post :
  k <> k' ->
  lookup k (pre ++ (k', v) :: post) = lookup k (pre ++ post).
Proof.
  intros Hne. induction pre as [|[k0 v0] pre IH]; cbn.
  - destruct (String.eqb_spec k k'); [contradiction|reflexivity].
  - now rewrite IH.
Qed.

Lemma extra_field_same_fields (k : string) (v : field F) pre post :
  k <> "b"%string -> k <> "a"%string ->
  same_fields (JsonObject (pre ++ (k, v) :: post)) (JsonObject (pre ++ post)).
Proof.
  intros Hb Ha. cbn. split; apply lookup_other_key; congruence.
Qed.

Lemma iteration_same_fields cfg m1 m2 sent w :
  same_fields m1 m2 ->
  iteration cfg m1 sent w = iteration cfg m2 sent w.
Proof.
  destruct m1 as [d1| |], m2 as [d2| |]; cbn [same_fields];
    try contradiction; try reflexivity.
  intros [Hb Ha]. unfold iteration, bind, json_loads, getitem, ret.
  now rewrite Hb, Ha.
Qed.

Lemma loop_same_fields cfg start msgs1 msgs2 :
  Forall2 same_fields msgs1 msgs2 ->
  forall sent w,
    loop cfg start msgs1 sent w = loop cfg start msgs2 sent w.
Proof.
  induction 1 as [|m1 m2 r1 r2 Hm _ IH]; intros sent w; [reflexivity|].
  rewrite !loop_unfold. unfold bind.
  destruct (stop_check cfg start sent w) as [[[|]|e] w1]; try reflexivity.
  rewrite (iteration_same_fields cfg m1 m2 sent w1 Hm).
  destruct (iteration cfg m2 sent w1) as [[s|e] w2]; [apply IH|reflexivity].
Qed.

(** X9.  Of a message the run reads the values under "b" and under "a"
    only: two feeds whose messages agree on these two give the same run,
    whatever other fields the objects hold and in whatever order. *)
Theorem run_reads_bid_and_ask_only cfg net1 net2 msgs1 msgs2 w :
  net1 (url_of (symbol cfg)) = Connected msgs1 ->
  net2 (url_of (symbol cfg)) = Connected msgs2 ->
  Forall2 same_fields msgs1 msgs2 ->
  run cfg net1 w = run cfg net2 w.
Proof.
  intros E1 E2 H.
  rewrite (run_connected _ _ _ _ E1), (run_connected _ _ _ _ E2).
  now rewrite (loop_same_fields cfg (start_time w) msgs1 msgs2 H).
Qed.

(** X10.  "b" is read before "a", and both before anything is drawn or
    written: an object without "b" raises [KeyError "b"] whatever it holds
    under "a"; one with a number under "b" and without "a" raises
    [KeyError "a"]; one whose "b" is text that is no number raises
    [ValueError] whatever it holds under "a".  The pass leaves the
    generator and the output as they were. *)
Theorem bid_is_decoded_before_ask cfg data sent w :
  (lookup "b" data = None ->
   iteration cfg (JsonObject data) sent w = (Raise (KeyError "b"), w)) /\
  (lookup "b" data = Some BadText ->
   iteration cfg (JsonObject data) sent w = (Raise ValueError, w)) /\
  (forall bid, lookup "b" data = Some (Floatable bid) ->
               lookup "a" data = None ->
   iteration cfg (JsonObject data) sent w = (Raise (KeyError "a"), w)).
Proof.
  unfold iteration, bind, json_loads, getitem, float_of, ret, raise.
  repeat split.
  - intros ->. reflexivity.
  - intros ->. reflexivity.
  - intros bid -> ->. reflexivity.
Qed.

Lemma lower_ascii_idempotent c : lower_ascii (lower_ascii c) = lower_ascii c.
Proof.
  destruct c as [[] [] [] [] [] [] [] []]; reflexivity.
Qed.

Lemma lower_idempotent s : lower (lower s) = lower s.
Proof.
  induction s as [|c s IH]; cbn; [reflexivity|].
  now rewrite lower_ascii_idempotent, IH.
Qed.

Lemma run_same_url cfg sym net w :
  lower sym = lower (symbol cfg) ->
  run (with_symbol cfg sym) net w = run cfg net w.
Proof.
  intros H. rewrite !run_unfold.
  change (symbol (with_symbol cfg sym)) with sym.
  assert (url_of sym = url_of (symbol cfg)) as ->
    by (unfold url_of; now rewrite H).
  change (at_loop_entry (with_symbol cfg sym) w) with (at_loop_entry cfg w).
  destruct (net (url_of (symbol cfg))) as [|msgs]; [reflexivity|].
  unfold bind.
  now rewrite (loop_ext (with_symbol cfg sym) cfg (start_time w)
                 (fun _ _ => eq_refl) (fun _ _ _ => eq_refl)).
Qed.

(** X11.  The case of the ASCII letters of the symbol does not matter: two
    symbols with the same lower-case form give the same run, and so does
    the symbol already in lower case. *)
Theorem symbol_case_does_not_matter cfg net w :
  (forall sym, lower sym = lower (symbol cfg) ->
               run (with_symbol cfg sym) net w = run cfg net w) /\
  run (with_symbol cfg (lower (symbol cfg))) net w = run cfg net w.
Proof.
  split.
  - intros sym H. now apply run_same_url.
  - apply run_same_url, lower_idempotent.
Qed.

(** X12.  A seed, 0 included, only replaces the generator before the
    loop: the run with seed [s] is the run without seed from the world
    whose generator is [random.seed(s)], whatever the generator held. *)
Theorem seeded_run_is_run_from_seeded_generator cfg s net w :
  run (with_seed cfg (Some s)) net w =
  run (with_seed cfg None) net (with_rng w (random_seed s)).
Proof.
  rewrite !run_unfold.
  change (symbol (with_seed cfg (Some s))) with (symbol cfg).
  change (symbol (with_seed cfg None)) with (symbol cfg).
  change (at_loop_entry (with_seed cfg None) (with_rng w (random_seed s)))
    with (at_loop_entry (with_seed cfg (Some s)) w).
  change (start_time (with_rng w (random_seed s))) with (start_time w).
  destruct (net (url_of (symbol cfg))) as [|msgs]; [reflexivity|].
  unfold bind.
  now rewrite (loop_ext (with_seed cfg (Some s)) (with_seed cfg None)
                 (start_time w) (fun _ _ => eq_refl) (fun _ _ _ => eq_refl)).
Qed.

End Reading.

Section Quotes.

Context {G : Type} {RG : Rng Q G} {RR : RngRanges G}.

Implicit Types (cfg : config Q) (w : world Q G).

Local Open Scope Q_scope.


End Quotes.

Section Clock.

Context {F G : Type} {PF : PyFloat F} {RG : Rng F G}.

Implicit Types (cfg : config F) (w : world F G) (msgs : list (message F)).

Lemma loop_untimed_clock cfg start msgs sent w :
  duration_set (duration cfg) = false ->
  clock (snd (loop cfg start msgs sent w)) = clock w /\
  reads (snd (loop cfg start msgs sent w)) = reads w.
Proof.
  intros Hd. revert sent w.
  induction msgs as [|msg rest IH]; intros sent w;
    rewrite loop_unfold;
    (erewrite bind_ok by (apply stop_check_untimed; exact Hd));
    destruct (limit_reached (limit cfg) sent); cbv beta iota;
    try (cbn; auto; fail).
  destruct (quote_of msg) as [[bid ask]|] eqn:Q.
  - erewrite bind_ok
      by (rewrite (iteration_ok _ _ _ _ _ _ Q); apply emit_burst_eq).
    match goal with |- context [loop cfg start rest ?s ?w1] =>
      destruct (IH s w1) as [I1 I2] end.
    cbn [clock reads] in *. auto.
  - destruct (iteration_raise cfg msg sent Q) as (e & _ & Er).
    erewrite bind_raise by apply Er. cbn. auto.
Qed.

(** X14.  With no duration (left out or 0) a run reads the clock once, for
    [start], and never in the loop: how long the passes and the pauses
    take cannot change what it does. *)
Theorem run_without_duration_reads_clock_once cfg net w :
  duration_set (duration cfg) = false ->
  reads (snd (run cfg net w)) = S (reads w) /\
  clock (snd (run cfg net w)) = clock w.
Proof.
  intros Hd. rewrite run_unfold.
  destruct (net (url_of (symbol cfg))) as [|msgs]; [cbn; auto|].
  destruct (loop_untimed_clock cfg (start_time w) msgs 0
              (at_loop_entry cfg w) Hd) as [H1 H2].
  unfold bind, write, flush, ret.
  destruct (loop cfg (start_time w) msgs 0 (at_loop_entry cfg w))
    as [[s|e] w']; cbn [fst snd clock reads at_loop_entry] in *; auto.
Qed.

(** X15.  Over a generator that records its calls, a run makes three
    calls for each order line it writes and no other call: the checks, the
    decoding and a message that fails draw nothing. *)
Theorem three_draws_per_order_line cfg net (w : world F (traced F G)) :
  exists lines : list string,
    stdout (snd (run cfg net w)) =
      stdout w ++ lines ++ sentinel (fst (run cfg net w)) /\
    Forall is_order lines /\
    List.length (calls (rng (snd (run cfg net w)))) =
      (List.length (calls (initial_rng cfg w)) + 3 * List.length lines)%nat.
Proof.
  destruct (run_bursts cfg net w) as (ls & k & Hout & Hord & _ & _ & Hrng).
  exists ls. split; [exact Hout|]. split; [exact Hord|].
  destruct (traced_burst_draws (List.length ls) (initial_rng cfg w))
    as (_ & _ & H3).
  rewrite Hrng, H3, length_app. f_equal.
  pose proof (burst_draws_length (List.length ls) (gen (initial_rng cfg w)))
    as Hn.
  revert Hn. generalize (fst (burst_draws (List.length ls)
                                (gen (initial_rng cfg w)))).
  generalize (List.length ls). intros n ds. revert n.
  induction ds as [|[[u j] q] ds IH]; intros n Hn; cbn in *; [lia|].
  destruct n as [|n]; [discriminate|]. injection Hn as Hn.
  rewrite (IH n Hn). lia.
Qed.

End Clock.

(* ------------------------------------------------------------------ *)
(** ** The further theorems at concrete inputs *)

Section MoreExamples.

Local Open Scope Q_scope.

(** The defaults on a feed of one update: no stop condition, so the run
    ends by the exception of the closed feed. *)
Lemma run_without_stop_condition_never_returns_witness :
  exists e lines,
    fst (run defaults (serving [ticker 100.00 100.02]) (fresh script9)) =
      Raise e /\
    stdout (snd (run defaults (serving [ticker 100.00 100.02])
                     (fresh script9))) = stdout (fresh script9) ++ lines /\
    Forall is_order lines /\ ~ In EXIT_line lines.
Proof.
  apply (run_without_stop_condition_never_returns
           defaults (serving [ticker 100.00 100.02]) (fresh script9));
    [reflexivity|left; reflexivity].
Defined.

(** A duration of 2 on a clock that shows 0, 1, 2: one pass, then the
    stop at the third reading. *)
Lemma returning_run_without_limit_stopped_on_clock_witness :
  exists d,
    duration two_seconds = Some d /\ truthy d = true /\
    clock (snd (run two_seconds
                    (serving [ticker 100.00 100.02; ticker 100.00 100.02])
                    (ticking script9))) = clock (ticking script9) /\
    (S (reads (ticking script9)) <
     reads (snd (run two_seconds
                     (serving [ticker 100.00 100.02; ticker 100.00 100.02])
                     (ticking script9))))%nat /\
    fge (fsub (clock (ticking script9)
                 (pred (reads (snd (run two_seconds
                                        (serving [ticker 100.00 100.02;
                                                  ticker 100.00 100.02])
                                        (ticking script9))))))
              (clock (ticking script9) (reads (ticking script9)))) d = true /\
    forall i,
      (S (reads (ticking script9)) <= i <
       pred (reads (snd (run two_seconds
                             (serving [ticker 100.00 100.02;
                                       ticker 100.00 100.02])
                             (ticking script9)))))%nat ->
      fge (fsub (clock (ticking script9) i)
                (clock (ticking script9) (reads (ticking script9)))) d = false.
Proof.
  apply (returning_run_without_limit_stopped_on_clock
           two_seconds
           (serving [ticker 100.00 100.02; ticker 100.00 100.02])
           (ticking script9)); [left; reflexivity|reflexivity].
Defined.

(** A duration of 1 on the same clock: elapsed at the first check. *)
Lemma elapsed_duration_stops_before_first_receive_witness :
  run (with_duration two_seconds (Some 1)) (serving [NotJson])
      (ticking script9) =
  (Ok tt,
   World (initial_rng (with_duration two_seconds (Some 1)) (ticking script9))
         (stdout (ticking script9) ++ [EXIT_line])
         (clock (ticking script9)) (S (S (reads (ticking script9))))).
Proof.
  apply (elapsed_duration_stops_before_first_receive
           (with_duration two_seconds (Some 1)) (serving [NotJson])
           [NotJson] 1 (ticking script9)); reflexivity.
Defined.

Lemma negative_limit_stops_before_first_receive_witness :
  run negative_limit (serving [NotJson]) (fresh script9) =
  (Ok tt,
   World (initial_rng negative_limit (fresh script9))
         (stdout (fresh script9) ++ [EXIT_line])
         (clock (fresh script9)) (S (reads (fresh script9)))).
Proof.
  apply (negative_limit_stops_before_first_receive
           negative_limit (serving [NotJson]) [NotJson] (-1)%Z
           (fresh script9)); reflexivity.
Defined.


(** A burst of 0 with a limit of 2: nothing is written, nothing is drawn,
    and the limit is never reached. *)
Lemma nonpositive_burst_writes_no_order_witness :
  stdout (snd (run no_burst (serving [ticker 100.00 100.02])
                   (fresh script9))) =
    stdout (fresh script9) ++
    sentinel (fst (run no_burst (serving [ticker 100.00 100.02])
                       (fresh script9))) /\
  rng (snd (run no_burst (serving [ticker 100.00 100.02]) (fresh script9))) =
    initial_rng no_burst (fresh script9) /\
  exists e,
    fst (run no_burst (serving [ticker 100.00 100.02]) (fresh script9)) =
      Raise e.
Proof.
  destruct (nonpositive_burst_writes_no_order
              no_burst (serving [ticker 100.00 100.02]) (fresh script9)
              ltac:(vm_compute; discriminate)) as (A & B & C).
  split; [exact A|]. split; [exact B|].
  apply C; [reflexivity|]. intros N [= <-]. lia.
Defined.

(** Limit 2, burst 3: what follows the first update is not received. *)
Lemma run_ignores_feed_after_limit_witness :
  run limit_2_burst_3 (serving ([ticker 100.00 100.02] ++ [NotJson]))
      (fresh script9) =
  run limit_2_burst_3 (serving ([ticker 100.00 100.02] ++ []))
      (fresh script9).
Proof.
  apply (run_ignores_feed_after_limit
           limit_2_burst_3
           (serving ([ticker 100.00 100.02] ++ [NotJson]))
           (serving ([ticker 100.00 100.02] ++ []))
           2%Z [ticker 100.00 100.02] [NotJson] [] (fresh script9));
    first [reflexivity | discriminate | vm_compute; discriminate].
Defined.

(** A message with a third field, "s", before the two that are read. *)
Lemma run_reads_bid_and_ask_only_witness :
  run defaults
      (serving [JsonObject [("s"%string, BadText);
                            ("b"%string, Floatable 100.00);
                            ("a"%string, Floatable 100.02)]])
      (fresh script9) =
  run defaults (serving [ticker 100.00 100.02]) (fresh script9).
Proof.
  apply (run_reads_bid_and_ask_only
           defaults
           (serving [JsonObject [("s"%string, BadText);
                                 ("b"%string, Floatable 100.00);
                                 ("a"%string, Floatable 100.02)]])
           (serving [ticker 100.00 100.02])
           [JsonObject [("s"%string, BadText);
                        ("b"%string, Floatable 100.00);
                        ("a"%string, Floatable 100.02)]]
           [ticker 100.00 100.02] (fresh script9));
    [reflexivity|reflexivity|].
  constructor; [|constructor].
  apply (extra_field_same_fields "s"%string BadText []
           [("b"%string, Floatable 100.00); ("a"%string, Floatable 100.02)]);
    discriminate.
Defined.

(** An object with "a" alone, and one with "b" alone. *)
Lemma bid_is_decoded_before_ask_witness :
  iteration defaults (JsonObject [("a"%string, BadType)]) 0 (fresh script9) =
    (Raise (KeyError "b"), fresh script9) /\
  iteration defaults (JsonObject [("b"%string, Floatable 100.00)]) 0
            (fresh script9) =
    (Raise (KeyError "a"), fresh script9).
Proof.
  split.
  - apply (proj1 (bid_is_decoded_before_ask
                    defaults [("a"%string, BadType)] 0%Z (fresh script9))).
    reflexivity.
  - apply (proj2 (proj2 (bid_is_decoded_before_ask
                           defaults [("b"%string, Floatable 100.00)] 0%Z
                           (fresh script9))) 100.00); reflexivity.
Defined.

Lemma symbol_case_does_not_matter_witness :
  run (with_symbol defaults "BtcUSDT") (serving [ticker 100.00 100.02])
      (fresh script9) =
  run defaults (serving [ticker 100.00 100.02]) (fresh script9).
Proof.
  apply (proj1 (symbol_case_does_not_matter
                  defaults (serving [ticker 100.00 100.02]) (fresh script9))
               "BtcUSDT"%string).
  reflexivity.
Defined.


Lemma run_without_duration_reads_clock_once_witness :
  reads (snd (run limit_2_burst_3 (serving [ticker 100.00 100.02])
                  (ticking script9))) = S (reads (ticking script9)) /\
  clock (snd (run limit_2_burst_3 (serving [ticker 100.00 100.02])
                  (ticking script9))) = clock (ticking script9).
Proof.
  apply (run_without_duration_reads_clock_once
           limit_2_burst_3 (serving [ticker 100.00 100.02])
           (ticking script9)).
  reflexivity.
Defined.

End MoreExamples.
